(** * A PACS node: store, find, move, and the landing-folder detector

    Shallow embedding of

    - [DICOM_PACS/PACS_SERVER/PACS_new.py]: the three service handlers
      [handle_store], [handle_find], [handle_move] working on the
      module-level list [stored_datasets];
    - [DICOM_PACS_VIEWER/backend/backend_new.py]: [wait_for_files], the
      C-STORE handler of the viewer and [get_images].

    Conventions of the embedding.

    - A pydicom [Dataset] is a finite map from attribute keyword to value,
      plus the [file_meta] attribute that [handle_store] sets on it.
      [hasattr(ds, 'K')] and ['K' in ds] are both "the key is present".
    - A Python [str] is a [string]; one [ascii] stands for one code point
      below 256.
    - A generator is given by what it does when its caller asks for every
      item: the list of things done (values yielded, sessions opened, ...)
      and how it finished. A caller that stops asking leaves the rest of the
      list undone: [driven] cuts the list where the caller stops.
      What the environment decides (the value of [event.is_cancelled] at
      each read, the outcome of each association, whether a file can be
      written, the clock, the content of a folder) is an explicit argument. *)

From Stdlib Require Import Ascii String QArith.
From stdpp Require Import base option list strings gmap.

Close Scope Q_scope.
Local Open Scope string_scope.
Local Open Scope list_scope.

(** ** Python strings *)

Module PyStr.

(** [str.isspace] on one character, for code points below 256:
    TAB, LF, VT, FF, CR, FS, GS, RS, US, SPACE, NEL (0x85), NBSP (0xA0). *)
Definition isspace (c : ascii) : bool :=
  match c with
  | "009" | "010" | "011" | "012" | "013"
  | "028" | "029" | "030" | "031" | " "
  | "133" | "160" => true
  | _ => false
  end%char.

(** [s.lstrip()] *)
Fixpoint lstrip (s : string) : string :=
  match s with
  | String c s' => if isspace c then lstrip s' else s
  | EmptyString => EmptyString
  end.

(** [s.rstrip()] *)
Definition rstrip (s : string) : string :=
  String.rev (lstrip (String.rev s)).

(** [s.strip()] *)
Definition strip (s : string) : string := rstrip (lstrip s).

(** [s.endswith(suffix)] *)
Definition endswith (s suffix : string) : bool :=
  String.prefix (String.rev suffix) (String.rev s).

(** Truth value of a string: [bool(s)]. *)
Definition truthy (s : string) : bool :=
  match s with EmptyString => false | String _ _ => true end.

End PyStr.

(** ** Datasets *)

Record Dataset := mkDataset {
  elements : gmap string string;
  file_meta : option (gmap string string)
}.

(** [Dataset()] *)
Definition Dataset_new : Dataset := mkDataset ∅ None.

(** [ds.K], when the attribute is there. *)
Definition attr (ds : Dataset) (k : string) : option string := elements ds !! k.

(** [ds.K = v] *)
Definition set_attr (k v : string) (ds : Dataset) : Dataset :=
  mkDataset (<[k := v]> (elements ds)) (file_meta ds).

(** ** How a call ends *)

Inductive exn :=
| AttributeError (name : string)
| OSError.

Inductive ending :=
| Returned
| Raised (e : exn).

(** ** DIMSE status codes used by the handlers *)

Definition Success : Z := 0x0000.
Definition Pending : Z := 0xFF00.
Definition Cancel : Z := 0xFE00.
Definition MoveDestinationUnknown : Z := 0xA801.
Definition SubOperationFailed : Z := 0xB000.

(** ** The server: [stored_datasets] and the files written by [save_as] *)

(** What a path holds: a dataset written out in full, or what a write left
    that failed after [save_as] had opened the file. Opening creates the file
    or empties the one that was there; what is left is whatever had been
    written of the new dataset when the write failed. *)
Inductive file :=
| Whole (ds : Dataset)
| Unfinished.

Record server := mkServer {
  stored_datasets : list Dataset;
  files : gmap string file
}.

Definition server_init : server := mkServer [] ∅.

(** *** C-STORE *)

Record store_event := mkStoreEvent {
  se_dataset : Dataset;                    (* event.dataset *)
  se_file_meta : gmap string string;       (* event.file_meta *)
  se_writable : bool;                      (* does ds.save_as(...) succeed? *)
  se_opened : bool                         (* when it fails: had it opened the file? *)
}.

(** What the caller of a plain function gets: a returned value or an
    exception. *)
Inductive result (A : Type) :=
| Return (a : A)
| Raise (e : exn).
Arguments Return {A} a.
Arguments Raise {A} e.

Definition handle_store (event : store_event) (st : server) : result Z * server :=
  let ds := mkDataset (elements (se_dataset event)) (Some (se_file_meta event)) in
  match attr ds "SOPInstanceUID" with
  | None => (Raise (AttributeError "SOPInstanceUID"), st)
  | Some uid =>
      let filename := uid +:+ ".dcm" in
      if se_writable event then
        (Return Success,
         mkServer (stored_datasets st ++ [ds]) (<[filename := Whole ds]> (files st)))
      else if se_opened event then
        (Raise OSError,
         mkServer (stored_datasets st) (<[filename := Unfinished]> (files st)))
      else
        (Raise OSError, st)
  end.

(** A sequence of store events, each handled on the state the previous one
    left. *)
Fixpoint store_all (events : list store_event) (st : server) : server :=
  match events with
  | [] => st
  | ev :: rest => store_all rest (snd (handle_store ev st))
  end.

(** The datasets that the successful events of a sequence add. *)
Definition stored_by (ev : store_event) : list Dataset :=
  match fst (handle_store ev server_init) with
  | Return _ => [mkDataset (elements (se_dataset ev)) (Some (se_file_meta ev))]
  | Raise _ => []
  end.

(** The SOPInstanceUIDs of a repository, entry by entry. *)
Definition sop_uids (l : list Dataset) : list (option string) :=
  (λ ds, attr ds "SOPInstanceUID") <$> l.

(** *** C-FIND *)

Record query_event := mkQueryEvent {
  identifier : Dataset;                    (* event.identifier *)
  is_cancelled : nat → bool                (* event.is_cancelled at its k-th read *)
}.

(** Lines 40-53: the loop over [stored_datasets], with [patient_ids_seen]. *)
Fixpoint find_matches (pid : string) (patient_ids_seen : gset string)
    (insts : list Dataset) : list Dataset :=
  match insts with
  | [] => []
  | inst :: rest =>
      match attr inst "PatientID" with
      | Some p =>
          if bool_decide (PyStr.strip p = PyStr.strip pid)
             && bool_decide (p ∉ patient_ids_seen)
          then
            let res := set_attr "PatientID" p
                         (set_attr "QueryRetrieveLevel" "PATIENT" Dataset_new) in
            let res := match attr inst "PatientName" with
                       | Some n => set_attr "PatientName" n res
                       | None => res
                       end in
            res :: find_matches pid ({[p]} ∪ patient_ids_seen) rest
          else find_matches pid patient_ids_seen rest
      | None => find_matches pid patient_ids_seen rest
      end
  end.

(** Lines 55-59: the yielding loop; [k] counts the reads of
    [event.is_cancelled] made so far. *)
Fixpoint yield_matches (cancelled : nat → bool) (k : nat) (matches : list Dataset)
    : list (Z * option Dataset) :=
  match matches with
  | [] => []
  | m :: rest =>
      if cancelled k then [(Cancel, None)]
      else (Pending, Some m) :: yield_matches cancelled (S k) rest
  end.

Definition handle_find (event : query_event) (stored : list Dataset)
    : list (Z * option Dataset) * ending :=
  let ds := identifier event in
  match attr ds "QueryRetrieveLevel" with
  | None => ([], Raised (AttributeError "QueryRetrieveLevel"))
  | Some level =>
      let matches :=
        if bool_decide (level = "PATIENT") then
          match attr ds "PatientID" with
          | Some pid =>
              if PyStr.truthy pid then find_matches pid ∅ stored else []
          | None => []
          end
        else [] in
      (yield_matches (is_cancelled event) 0 matches, Returned)
  end.

(** The results proper among what a find yields: the [(0xFF00, match)] pairs. *)
Definition match_results (ys : list (Z * option Dataset)) : list Dataset :=
  omap (λ y, if bool_decide (y.1 = Pending) then y.2 else None) ys.

(** *** C-MOVE *)

Definition KNOWN_AE_DESTINATIONS : gmap string (string * Z) :=
  {[ "TESTSCU" := ("127.0.0.1", 11113%Z); "TESTSCU2" := ("127.0.0.1", 11119%Z) ]}.

(** Abstract syntaxes are UIDs; the three named ones are pynetdicom's. *)
Definition CTImageStorage : string := "1.2.840.10008.5.1.4.1.1.2".
Definition MRImageStorage : string := "1.2.840.10008.5.1.4.1.1.4".
Definition ComputedRadiographyImageStorage : string := "1.2.840.10008.5.1.4.1.1.1".

(** What the generator hands to its caller. *)
Inductive move_item :=
| Destination (addr : string) (port : Z) (ae_title : string) (contexts : list string)
| SubOperations (n : nat)
| Status (code : Z).

(** What the generator does, in order: values yielded and the calls made on
    the outbound interface. *)
Inductive action :=
| Yield (v : move_item)
| Associate (addr : string) (port : Z) (ae_title : string) (contexts : list string)
| SendCStore (inst : Dataset)
| Release.

(** The outcome of [storage_ae.associate(...)] and, when the association is
    established, the status dataset that [assoc.send_c_store(inst)] returns:
    [None] for an empty (falsy) one, [Some code] for its [Status]. These are
    the sessions on which [send_c_store] returns; one on which it raises
    (pynetdicom does for a dataset it cannot encode or has no context for)
    is not among them, and what is proved of a move is proved of the moves
    whose transfers return. *)
Inductive session :=
| NotEstablished
| Established (status : option Z).

Record move_event := mkMoveEvent {
  mv_identifier : Dataset;                 (* event.identifier *)
  move_destination : string;               (* event.move_destination *)
  mv_is_cancelled : nat → bool;            (* event.is_cancelled at its k-th read *)
  mv_network : nat → session               (* what the k-th associate() meets *)
}.

(** Line 99: the test applied to each stored instance. *)
Definition same_patient (pid : string) (inst : Dataset) : bool :=
  match attr inst "PatientID" with
  | Some p => bool_decide (PyStr.strip p = PyStr.strip pid)
  | None => false
  end.

(** Lines 97-100: candidate selection. *)
Definition select_candidates (ds : Dataset) (level : string) (stored : list Dataset)
    : list Dataset :=
  if bool_decide (level = "PATIENT") then
    match attr ds "PatientID" with
    | Some pid => filter (λ inst, same_patient pid inst) stored
    | None => []
    end
  else [].

(** Lines 113-118: the contexts requested for one instance. *)
Definition storage_contexts (inst : Dataset) : list string :=
  [CTImageStorage; MRImageStorage; ComputedRadiographyImageStorage]
  ++ match attr inst "SOPClassUID" with Some c => [c] | None => [] end.

(** Lines 107-135: the sending loop. Iteration [k] reads
    [event.is_cancelled] for the [k]-th time and, unless it returns, makes
    the [k]-th call of [associate]. *)
Fixpoint send_loop (event : move_event) (addr : string) (port : Z) (dest_ae : string)
    (k : nat) (to_send : list Dataset) : list action * ending :=
  match to_send with
  | [] => ([], Returned)
  | inst :: rest =>
      if mv_is_cancelled event k then ([Yield (Status Cancel)], Returned)
      else
        let open := Associate addr port dest_ae (storage_contexts inst) in
        match mv_network event k with
        | Established status =>
            match attr inst "SOPInstanceUID" with
            | None =>
                ([open; SendCStore inst; Release],
                 Raised (AttributeError "SOPInstanceUID"))
            | Some _ =>
                let code := if bool_decide (status = Some Success)
                            then Pending else SubOperationFailed in
                let '(acts, fin) := send_loop event addr port dest_ae (S k) rest in
                (open :: SendCStore inst :: Release :: Yield (Status code) :: acts, fin)
            end
        | NotEstablished =>
            let '(acts, fin) := send_loop event addr port dest_ae (S k) rest in
            (open :: Yield (Status MoveDestinationUnknown) :: acts, fin)
        end
  end.

Section Move.

(** [StoragePresentationContexts] belongs to pynetdicom: the abstract
    syntaxes of its entries, in order. *)
Variable StoragePresentationContexts : list string.

(** Lines 82-88: the contexts collected on [temp_ae]. *)
Definition requested_contexts : list string :=
  [CTImageStorage; MRImageStorage; ComputedRadiographyImageStorage]
  ++ take 50 StoragePresentationContexts.

Definition handle_move (event : move_event) (stored : list Dataset)
    : list action * ending :=
  let ds := mv_identifier event in
  let dest_ae := move_destination event in
  match KNOWN_AE_DESTINATIONS !! dest_ae with
  | None => ([Yield (Status MoveDestinationUnknown)], Returned)
  | Some (addr, port) =>
      let first := Yield (Destination addr port dest_ae requested_contexts) in
      match attr ds "QueryRetrieveLevel" with
      | None => ([first], Raised (AttributeError "QueryRetrieveLevel"))
      | Some level =>
          let to_send := select_candidates ds level stored in
          let '(acts, fin) := send_loop event addr port dest_ae 0 to_send in
          (first :: Yield (SubOperations (length to_send)) :: acts, fin)
      end
  end.

End Move.

(** Projections of a trace. *)
Definition yields (t : list action) : list move_item :=
  omap (λ a, match a with Yield v => Some v | _ => None end) t.

Definition sent (t : list action) : list Dataset :=
  omap (λ a, match a with SendCStore i => Some i | _ => None end) t.

(** The sessions opened, each by the contexts it was requested with. *)
Definition associations (t : list action) : list (list string) :=
  omap (λ a, match a with Associate _ _ _ c => Some c | _ => None end) t.

Definition sessions_opened (t : list action) : nat := length (associations t).

(** *** The caller of [handle_move]

    [handle_move] is registered as the handler of [evt.EVT_C_MOVE] (lines
    147-154) and called by nothing else: its generator is advanced by the
    C-MOVE service of pynetdicom, one item at a time. The service takes the
    destination and the count, then one status per sub-operation, and asks
    for nothing more once a status tells it that the operation is over; the
    generator is closed and what it would do next is not done. [stops v]
    says that the caller asks for nothing after the item [v]. *)
Fixpoint driven (stops : move_item → bool) (t : list action) : list action :=
  match t with
  | [] => []
  | Yield v :: t' => if stops v then [Yield v] else Yield v :: driven stops t'
  | a :: t' => a :: driven stops t'
  end.



(** ** The landing-folder detector ([wait_for_files]) *)

Module Detector.

(** The local variables of the loop. *)
Record poll_state := mkPoll {
  stable_count : Z;
  previous_count : Z;
  current_files : list string
}.

(** Lines 71-74. *)
Definition initial : poll_state := mkPoll 0 (-1) [].

(** What the loop meets: the readings of [time.time()] (reading 0 is
    [start_time], reading [k+1] is the one in the loop condition of
    iteration [k]) and the folder as iteration [k] finds it ([None] when
    [os.path.exists] is false, else [os.listdir]). The arguments [folder]
    and [poll_interval] are in there: which folder is listed, and how far
    [time.sleep] lets the clock move between two readings. *)
Record world := mkWorld {
  now : nat → Q;
  listing : nat → option (list string)
}.

(** Line 77. *)
Definition dcm_files (names : list string) : list string :=
  filter (λ fname, PyStr.endswith fname ".dcm") names.

(** Lines 76-85: one pass through the loop body up to the [break] test;
    the boolean is "break". *)
Definition poll (consecutive : Z) (st : poll_state) (folder : option (list string))
    : poll_state * bool :=
  match folder with
  | Some names =>
      let files := dcm_files names in
      let current_count := Z.of_nat (length files) in
      let st' :=
        if bool_decide (current_count = previous_count st)
        then mkPoll (stable_count st + 1) (previous_count st) files
        else mkPoll 0 current_count files in
      (st', bool_decide (consecutive ≤ stable_count st')%Z)
  | None => (st, false)
  end.

(** Line 75: the loop condition of iteration [k]. *)
Definition in_time (w : world) (timeout : Q) (k : nat) : bool :=
  if Qlt_le_dec (now w (S k) - now w 0) timeout then true else false.

(** How a run ended. *)
Record stop := mkStop {
  files_returned : list string;    (* the value returned *)
  polls : nat;                     (* loop iterations entered *)
  sleeps : nat;                    (* calls of time.sleep *)
  by_timeout : bool                (* left through the loop condition *)
}.

(** Lines 75-87. The loop ends when the clock says so; [fuel] bounds the
    iterations the model is willing to follow. *)
Fixpoint loop (w : world) (timeout : Q) (consecutive : Z)
    (fuel k : nat) (st : poll_state) : option stop :=
  match fuel with
  | O => None
  | S fuel' =>
      if in_time w timeout k then
        let '(st', brk) := poll consecutive st (listing w k) in
        if brk then Some (mkStop (current_files st') (S k) k false)
        else loop w timeout consecutive fuel' (S k) st'
      else Some (mkStop (current_files st) k k true)
  end.

Definition run (w : world) (timeout : Q) (consecutive : Z) (fuel : nat)
    : option stop :=
  loop w timeout consecutive fuel 0 initial.

Definition wait_for_files (w : world) (timeout : Q) (consecutive : Z) (fuel : nat)
    : option (list string) :=
  files_returned <$> run w timeout consecutive fuel.

(** *** The loop, poll by poll *)

(** The [.dcm] listings seen by the first [n] polls, oldest first; a poll
    that finds no folder sees nothing. *)
Definition seen (w : world) (n : nat) : list (list string) :=
  omap (λ k, dcm_files <$> listing w k) (seq 0 n).

(** The most recent listing seen, [[]] before the first. *)
Definition latest (obs : list (list string)) : list string :=
  default [] (last obs).

(** Leading elements of [l] equal to [x]. *)
Fixpoint run_of (x : nat) (l : list nat) : nat :=
  match l with
  | y :: l' => if bool_decide (x = y) then S (run_of x l') else 0
  | [] => 0
  end.

(** For how many polls in a row, up to the latest, the item count was the
    same as at the poll before. *)
Definition unchanged_polls (obs : list (list string)) : nat :=
  match reverse (length <$> obs) with
  | x :: l => run_of x l
  | [] => 0
  end.

(** Poll [k] finds the folder, and with it the count has been unchanged
    for [consecutive] polls in a row. *)
Definition settled (w : world) (consecutive : Z) (k : nat) : Prop :=
  is_Some (listing w k) ∧ (consecutive ≤ Z.of_nat (unchanged_polls (seen w (S k))))%Z.

(** Iteration [k] is where the call stops: the timeout has elapsed when
    its loop condition is read, or its poll settles. *)
Definition stops_at (w : world) (timeout : Q) (consecutive : Z) (k : nat) : Prop :=
  in_time w timeout k = false ∨ settled w consecutive k.

Definition first_stop (w : world) (timeout : Q) (consecutive : Z) (k : nat) : Prop :=
  stops_at w timeout consecutive k ∧
  ∀ j, j < k → ¬ stops_at w timeout consecutive j.

(** The loop variables as a function of what the polls so far have seen. *)
Definition summary (obs : list (list string)) : poll_state :=
  match last obs with
  | Some files =>
      mkPoll (Z.of_nat (unchanged_polls obs)) (Z.of_nat (length files)) files
  | None => initial
  end.

(** Where the run ends, given the iteration at which it first stops. *)
Definition outcome_at (w : world) (timeout : Q) (k : nat) : stop :=
  if in_time w timeout k
  then mkStop (latest (seen w (S k))) (S k) k false
  else mkStop (latest (seen w k)) k k true.

#[export] Instance settled_dec w c k : Decision (settled w c k).
Proof. unfold settled. apply _. Defined.

#[export] Instance stops_at_dec w timeout c k : Decision (stops_at w timeout c k).
Proof. unfold stops_at. apply _. Defined.

(** *** The stopping rule in the specification's words

    Written without the functions of the loop: the items are picked by
    their names, the clock readings are compared as rationals. *)

(** The items of a listing: the names that end in [.dcm], in the order of
    the listing. *)
Definition items (names : list string) : list string :=
  filter (λ fname, PyStr.endswith fname ".dcm" = true) names.

(** What the polls before the [n]-th observed: the items of each listing
    found, oldest first. A poll that finds no folder observes nothing. *)
Definition observed (w : world) (n : nat) : list (list string) :=
  omap (λ k, items <$> listing w k) (seq 0 n).

(** The timeout has elapsed when iteration [k] reads the clock. *)
Definition elapsed (w : world) (timeout : Q) (k : nat) : Prop :=
  (timeout <= now w (S k) - now w 0)%Q.

(** Poll [k] finds the folder, and with it the item count observed has been
    unchanged for [consecutive] polls in a row. *)
Definition stable (w : world) (consecutive : Z) (k : nat) : Prop :=
  is_Some (listing w k)
  ∧ (consecutive ≤ Z.of_nat (unchanged_polls (observed w (S k))))%Z.

(** Iteration [k] is the earliest at which one of the two conditions holds. *)
Definition stopping_point (w : world) (timeout : Q) (consecutive : Z) (k : nat)
    : Prop :=
  (elapsed w timeout k ∨ stable w consecutive k)
  ∧ ∀ j, j < k → ¬ (elapsed w timeout j ∨ stable w consecutive j).

End Detector.

(** ** Notions used to state the properties *)

(** An entry of [stored_datasets] has a SOPInstanceUID: [handle_store] reads
    it before it appends. *)
Definition has_uid (inst : Dataset) : Prop := is_Some (attr inst "SOPInstanceUID").

(** The instances a query for [pid] is about: those whose stored PatientID,
    trimmed, is the trimmed [pid]. *)
Definition shares_trimmed_id (pid : string) (inst : Dataset) (p : string) : Prop :=
  attr inst "PatientID" = Some p ∧ PyStr.strip p = PyStr.strip pid.

(** The status yielded for one candidate whose turn came. *)
Definition item_status (s : session) : Z :=
  match s with
  | NotEstablished => 0xA801
  | Established status => if bool_decide (status = Some 0%Z) then 0xFF00 else 0xB000
  end.

(** ** Concrete data used by the examples *)

Definition instance_of (pid uid : string) : Dataset :=
  mkDataset {[ "PatientID" := pid; "SOPInstanceUID" := uid ]} None.

Definition request (level pid : string) : Dataset :=
  mkDataset {[ "QueryRetrieveLevel" := level; "PatientID" := pid ]} None.

Definition never : nat → bool := λ _, false.

(** A landing folder polled every half second: one item is there from the
    start, a second one arrives at 1 s, and a file that is not a [.dcm] lies
    beside them. *)
Definition two_arrivals : Detector.world :=
  Detector.mkWorld (λ k, Qmake (Z.of_nat (pred k)) 2)
          (λ k, if (k <? 2)%nat then Some ["a.dcm"; "notes.txt"]
                else Some ["a.dcm"; "notes.txt"; "b.dcm"]).

(** A folder that never appears, polled every half second. *)
Definition no_folder : Detector.world :=
  Detector.mkWorld (λ k, Qmake (Z.of_nat (pred k)) 2) (λ _, None).


(** ** The viewer backend ([backend_new.py]) *)

Module PyPath.

(** [s.lstrip(c)] for a one-character [c]. *)
Fixpoint lstrip_char (c : ascii) (s : string) : string :=
  match s with
  | String a s' => if Ascii.eqb a c then lstrip_char c s' else s
  | EmptyString => EmptyString
  end.

(** [s.rstrip(c)] for a one-character [c]. *)
Definition rstrip_char (c : ascii) (s : string) : string :=
  String.rev (lstrip_char c (String.rev s)).

(** [os.path.join(a, b)] as [posixpath] has it. *)
Definition join (a b : string) : string :=
  if String.prefix "/" b then b
  else if PyStr.truthy a && negb (PyStr.endswith a "/") then a +:+ "/" +:+ b
  else a +:+ b.

End PyPath.

Module Viewer.

Definition PACS_AE_TITLE : string := "MYPACS".
Definition PACS_IP : string := "127.0.0.1".
Definition PACS_PORT : Z := 104.
Definition CLIENT_AE_TITLE : string := "TESTSCU2".
Definition CLIENT_PORT : Z := 11119.

(** Lines 38 and 172: [os.path.join("static", f"retrieved_{patient_id}")]. *)
Definition retrieved_folder (patient_id : string) : string :=
  PyPath.join "static" ("retrieved_" +:+ patient_id).

(** What the backend has asked the file system for, by the path strings it
    passed: the folders given to [os.makedirs], the files given to
    [save_as] with what each holds since. *)
Record disk := mkDisk {
  dirs : gset string;
  contents : gmap string file
}.

(** The files that hold a whole dataset. *)
Definition saved (d : disk) : gmap string Dataset :=
  omap (λ f, match f with Whole ds => Some ds | Unfinished => None end) (contents d).

Record store_event := mkStoreEvent {
  dataset : Dataset;                       (* event.dataset *)
  ev_file_meta : gmap string string;       (* event.file_meta *)
  makedirs_ok : bool;                      (* does os.makedirs(...) succeed? *)
  writable : bool;                         (* does ds.save_as(...) succeed? *)
  opened : bool                            (* when it fails: had it opened the file? *)
}.

(** Lines 34-43: the C-STORE handler of the viewer. *)
Definition handle_store (event : store_event) (d : disk) : result Z * disk :=
  let ds := mkDataset (elements (dataset event)) (Some (ev_file_meta event)) in
  let patient_id := PyStr.strip (default "unknown" (attr ds "PatientID")) in
  let folder_name := retrieved_folder patient_id in
  if makedirs_ok event then
    let d := mkDisk ({[folder_name]} ∪ dirs d) (contents d) in
    match attr ds "SOPInstanceUID" with
    | None => (Raise (AttributeError "SOPInstanceUID"), d)
    | Some uid =>
        let filename := PyPath.join folder_name (uid +:+ ".dcm") in
        if writable event then
          (Return Success, mkDisk (dirs d) (<[filename := Whole ds]> (contents d)))
        else if opened event then
          (Raise OSError, mkDisk (dirs d) (<[filename := Unfinished]> (contents d)))
        else (Raise OSError, d)
    end
  else (Raise OSError, d).

(** What [get_images] does, in order. *)
Inductive action :=
| ScpShutdown
| ScpStart (ae_title : string) (port : Z)
| Sleep (seconds : Q)
| Associate (ip : string) (port : Z) (ae_title : string)
| SendCFind (identifier : Dataset)
| SendCMove (identifier : Dataset) (move_aet : string)
| Release
| LogError (msg : string)
| WaitForFiles (folder : string).

(** Lines 59-64; the global [scp_server] is kept as "is not [None]". *)
Definition stop_scp_server (scp_server : bool) : list action * bool :=
  if scp_server then ([ScpShutdown], false) else ([], false).

(** Lines 46-56. *)
Definition start_scp_server : list action * bool :=
  ([ScpStart CLIENT_AE_TITLE CLIENT_PORT], true).

Record http_request := mkRequest {
  patientId : option string;               (* request.args.get('patientId') *)
  host_url : string                        (* request.host_url *)
}.

(** The JSON body of an answer. *)
Inductive body :=
| Images (urls : list string)
| Error (msg : string).

(** What the PACS side and the landing folder do during one request. The
    responses of a C-FIND or C-MOVE are the status of each, [None] for an
    empty status dataset, in the order received; [*_raises] says that an
    exception ends them. *)
Record environment := mkEnv {
  pacs_established : bool;                 (* assoc.is_established after associate *)
  find_responses : list (option Z);
  find_raises : bool;
  move_responses : list (option Z);
  move_raises : bool;
  still_established : bool;                (* assoc.is_established in the finally clause *)
  landing : Detector.world                 (* clock and folder met by wait_for_files *)
}.

(** Line 130: [status and status.Status in (0xFF00, 0xFF01)]. *)
Definition is_pending (status : option Z) : bool :=
  match status with
  | Some code => bool_decide (code = 0xFF00%Z) || bool_decide (code = 0xFF01%Z)
  | None => false
  end.

(** Lines 152-157: [completed] after the C-MOVE responses. *)
Definition move_completed (responses : list (option Z)) : bool :=
  existsb (λ status, bool_decide (status = Some 0x0000%Z)) responses.

(** Line 176: the URL of one file. *)
Definition image_url (host_url patient_id fname : string) : string :=
  PyPath.rstrip_char "/" host_url
  +:+ "/static/retrieved_" +:+ patient_id +:+ "/" +:+ fname.

(** Lines 171-183: what follows the DICOM exchange. *)
Definition collect_images (req : http_request) (env : environment)
    (patient_id : string) (scp_server : bool) (fuel : nat) (done : list action)
    : option ((body * Z) * list action * bool) :=
  let folder := retrieved_folder patient_id in
  files ← Detector.wait_for_files (landing env) 10 2 fuel;
  let image_urls := image_url (host_url req) patient_id <$> files in
  let '(stop, scp_server) := stop_scp_server scp_server in
  Some ((Images image_urls, 200%Z), done ++ [WaitForFiles folder] ++ stop, scp_server).

(** Lines 89-183. The answer (body and HTTP code), what was done, and
    whether [scp_server] is set afterwards; [None] when [fuel] does not
    cover the wait. The responses of the C-FIND are read one by one up to
    the first pending one, so an exception that would end them after it is
    never met. On the path that returns for "not found" the association has
    just been released, and the [finally] clause finds it no longer
    established. *)
Definition get_images (req : http_request) (env : environment)
    (scp_server : bool) (fuel : nat)
    : option ((body * Z) * list action * bool) :=
  match patientId req with
  | None => Some ((Error "PatientID is required", 400%Z), [], scp_server)
  | Some raw =>
      if negb (PyStr.truthy raw)
      then Some ((Error "PatientID is required", 400%Z), [], scp_server)
      else
        let patient_id := PyStr.strip raw in
        let '(stop, _) := stop_scp_server scp_server in
        let '(start, scp_server) := start_scp_server in
        let done := stop ++ start
                    ++ [Sleep 1; Associate PACS_IP PACS_PORT PACS_AE_TITLE] in
        if pacs_established env then
          let query_ds := set_attr "PatientID" patient_id
                            (set_attr "QueryRetrieveLevel" "PATIENT" Dataset_new) in
          let done := done ++ [SendCFind query_ds] in
          let release := if still_established env then [Release] else [] in
          if existsb is_pending (find_responses env) then
            let move_ds := set_attr "PatientID" patient_id
                             (set_attr "QueryRetrieveLevel" "PATIENT" Dataset_new) in
            let done := done ++ [SendCMove move_ds CLIENT_AE_TITLE] in
            let log :=
              if move_raises env then [LogError "Error during DICOM operations"]
              else if move_completed (move_responses env) then []
              else [LogError "C-MOVE failed or was incomplete."] in
            collect_images req env patient_id scp_server fuel (done ++ log ++ release)
          else if find_raises env then
            collect_images req env patient_id scp_server fuel
              (done ++ [LogError "Error during DICOM operations"] ++ release)
          else
            let '(stop, scp_server) := stop_scp_server scp_server in
            Some ((Images [], 200%Z), done ++ [Release] ++ stop, scp_server)
        else
          Some ((Error "Could not associate with PACS", 500%Z), done, scp_server)
  end.

(** The folders waited on, the C-MOVEs sent and the servers started in a
    trace. *)
Definition waited_on (t : list action) : list string :=
  omap (λ a, match a with WaitForFiles f => Some f | _ => None end) t.

Definition moves_sent (t : list action) : list (Dataset * string) :=
  omap (λ a, match a with SendCMove ds aet => Some (ds, aet) | _ => None end) t.

End Viewer.

(** ** More notions used to state properties *)

(** The entry stored last under a SOPInstanceUID. *)
Definition latest_with_uid (uid : string) (l : list Dataset) : option Dataset :=
  last (filter (λ ds, attr ds "SOPInstanceUID" = Some uid) l).

(** The files of a server agree with its list: every path [<uid>.dcm] holds
    the entry stored last under that SOPInstanceUID, written out in full, or
    what a failed write left. *)
Definition files_agree (st : server) : Prop :=
  ∀ uid, files st !! (uid +:+ ".dcm")
         = Whole <$> latest_with_uid uid (stored_datasets st)
         ∨ files st !! (uid +:+ ".dcm") = Some Unfinished.

(** The first entry stored under a PatientID, as spelled. *)
Definition first_with_id (p : string) (l : list Dataset) : option Dataset :=
  snd <$> list_find (λ ds, attr ds "PatientID" = Some p) l.

(** A string is empty or begins with a character that is not white space. *)
Definition clean_head (s : string) : Prop :=
  match s with
  | String c _ => PyStr.isspace c = false
  | EmptyString => True
  end.

(** More concrete data. *)

Definition named_instance (pid name uid : string) : Dataset :=
  mkDataset {[ "PatientID" := pid; "PatientName" := name;
               "SOPInstanceUID" := uid ]} None.

(** A folder that holds one item from the start. *)
Definition steady_folder : Detector.world :=
  Detector.mkWorld (λ k, Qmake (Z.of_nat (pred k)) 2) (λ _, Some ["a.dcm"]).

(** A folder that appears at the third poll. *)
Definition late_folder : Detector.world :=
  Detector.mkWorld (λ k, Qmake (Z.of_nat (pred k)) 2)
                   (λ k, if (k <? 2)%nat then None else Some ["a.dcm"; "b.dcm"]).

Definition viewer_request : Viewer.http_request :=
  Viewer.mkRequest (Some " 123 ") "http://localhost:5000/".

(** The PACS answers the C-FIND with one match, the C-MOVE fails. *)
Definition pacs_found_move_failed : Viewer.environment :=
  Viewer.mkEnv true [Some 0xFF00%Z; Some 0%Z] false [Some 0xA801%Z] false true
    two_arrivals.

(** The PACS answers the C-FIND with its final status only. *)
Definition pacs_not_found : Viewer.environment :=
  Viewer.mkEnv true [Some 0%Z] false [] false true two_arrivals.

(** The PACS cannot be reached. *)
Definition pacs_unreachable : Viewer.environment :=
  Viewer.mkEnv false [] false [] false false two_arrivals.

(** Every session of a trace is asked of one address, port and title. *)
Definition sessions_go_to (addr : string) (port : Z) (dest : string)
    (t : list action) : Prop :=
  ∀ a p d c, Associate a p d c ∈ t → a = addr ∧ p = port ∧ d = dest.

(** * Properties *)

(** ** Store *)

Lemma handle_store_result_state_free ev st st' :
  fst (handle_store ev st) = fst (handle_store ev st').
Proof.
  unfold handle_store.
  destruct (attr _ "SOPInstanceUID"); [|done].
  destruct (se_writable ev); [done|]. by destruct (se_opened ev).
Qed.

Lemma handle_store_appends ev st :
  stored_datasets (snd (handle_store ev st)) = stored_datasets st ++ stored_by ev.
Proof.
  unfold stored_by, handle_store.
  destruct (attr _ "SOPInstanceUID"); simpl; [|by rewrite app_nil_r].
  destruct (se_writable ev); simpl; [done|].
  destruct (se_opened ev); simpl; by rewrite app_nil_r.
Qed.

Lemma stored_by_has_uid ev : Forall has_uid (stored_by ev).
Proof.
  unfold stored_by, handle_store.
  destruct (attr _ "SOPInstanceUID") as [uid|] eqn:E; simpl; [|constructor].
  destruct (se_writable ev); simpl; [|destruct (se_opened ev); constructor].
  repeat constructor. by exists uid.
Qed.

Lemma store_all_appends events : ∀ st,
  stored_datasets (store_all events st) = stored_datasets st ++ (events ≫= stored_by).
Proof.
  induction events as [|ev rest IH]; intros st; simpl.
  - by rewrite app_nil_r.
  - by rewrite IH, handle_store_appends, <-app_assoc.
Qed.

(** Every repository that store events build from the empty one has a
    SOPInstanceUID on each entry. *)
Lemma store_all_has_uid events :
  Forall has_uid (stored_datasets (store_all events server_init)).
Proof.
  rewrite store_all_appends. simpl.
  induction events as [|ev rest IH]; simpl; [constructor|].
  apply Forall_app. split; [apply stored_by_has_uid|done].
Qed.

(** C3, the claim as written fails: the same instance stored twice gives two
    entries with the same SOPInstanceUID. *)
Lemma C3_duplicate_store_kept :
  let ev := mkStoreEvent (instance_of "123" "1.2.3") ∅ true true in
  let st := store_all [ev; ev] server_init in
  length (stored_datasets st) = 2 ∧ ¬ NoDup (sop_uids (stored_datasets st)).
Proof.
  split; [reflexivity|].
  intros H. vm_compute in H.
  apply NoDup_cons_1_1 in H. apply H. left.
Qed.

(** C3, amended: [handle_store] appends on every store event that succeeds,
    whether or not the SOPInstanceUID is already there; the repository after a
    sequence of events is the old one followed by the instances of the
    successful events, so no two entries share a SOPInstanceUID exactly when
    that holds of this list. *)
Theorem C3_store_appends_unconditionally (events : list store_event) (st : server) :
  stored_datasets (store_all events st)
    = stored_datasets st ++ (events ≫= stored_by)
  ∧ (NoDup (sop_uids (stored_datasets (store_all events st)))
     ↔ NoDup (sop_uids (stored_datasets st) ++ sop_uids (events ≫= stored_by))).
Proof.
  split; [apply store_all_appends|].
  unfold sop_uids. by rewrite store_all_appends, fmap_app.
Qed.

(** C8, the claim as written fails: when the file cannot be written the call
    returns no status at all. *)
Lemma C8_failure_is_raised_not_returned :
  let ev := mkStoreEvent (instance_of "123" "1.2.3") ∅ false false in
  ¬ ∃ code : Z, fst (handle_store ev server_init) = Return code.
Proof. intros ev [code H]. vm_compute in H. discriminate. Qed.

(** C8, amended: when persisting fails, [handle_store] raises: the exception
    reaches the caller, nothing is appended to [stored_datasets], and no
    status (in particular not 0x0000) is returned. What the failed write
    left on disk is not undone. *)
Theorem C8_store_failure_propagates (ev : store_event) (st : server) :
  se_writable ev = false →
  (∃ e, fst (handle_store ev st) = Raise e)
  ∧ stored_datasets (snd (handle_store ev st)) = stored_datasets st
  ∧ ∀ code : Z, fst (handle_store ev st) ≠ Return code.
Proof.
  intros Hw. unfold handle_store. rewrite Hw.
  destruct (attr _ "SOPInstanceUID"); simpl; [|by eauto].
  destruct (se_opened ev); simpl; eauto.
Qed.

Lemma C8_store_failure_propagates_witness :
  let first := mkStoreEvent (instance_of "123" "1.2.3") ∅ true true in
  let ev := mkStoreEvent (instance_of "123" "1.2.3") ∅ false true in
  let st := store_all [first] server_init in
  se_writable ev = false
  ∧ (∃ e, fst (handle_store ev st) = Raise e)
  ∧ stored_datasets (snd (handle_store ev st))
    = [mkDataset (elements (instance_of "123" "1.2.3")) (Some ∅)]
  ∧ ∀ code : Z, fst (handle_store ev st) ≠ Return code.
Proof.
  intros first ev st. split; [reflexivity|].
  apply (C8_store_failure_propagates ev st). reflexivity.
Defined.

(** [handle_store] returns 0x0000 exactly when the file was written. *)
Lemma handle_store_success_iff ev st code :
  fst (handle_store ev st) = Return code ↔
  code = 0x0000%Z ∧ se_writable ev = true ∧ is_Some (attr (se_dataset ev) "SOPInstanceUID").
Proof.
  unfold handle_store, attr. simpl.
  destruct (elements (se_dataset ev) !! "SOPInstanceUID") eqn:E; simpl.
  - destruct (se_writable ev); simpl.
    + split; [intros [= <-]; eauto|by intros (-> & _ & _)].
    + destruct (se_opened ev); simpl; (split; [done|by intros (_ & ? & _)]).
  - split; [done|]. by intros (_ & _ & [? ?]).
Qed.

(** ** Find *)

(** C7, the claim as written fails: an empty PatientID in a PATIENT-level
    query is not "return every patient"; with one patient stored the find
    yields nothing. *)
Lemma C7_empty_patient_id_yields_nothing :
  handle_find (mkQueryEvent (request "PATIENT" "") never) [instance_of "123" "1.2.3"]
  = ([], Returned).
Proof. reflexivity. Qed.

(** C7, amended: for a PATIENT-level query whose PatientID is present and
    empty, [handle_find] yields the empty sequence (no result and no
    cancellation marker), whatever is stored. *)
Theorem C7_empty_patient_id_matches_nothing (event : query_event) (stored : list Dataset) :
  attr (identifier event) "QueryRetrieveLevel" = Some "PATIENT" →
  attr (identifier event) "PatientID" = Some "" →
  handle_find event stored = ([], Returned).
Proof. intros Hl Hp. unfold handle_find. by rewrite Hl, Hp. Qed.

Lemma C7_empty_patient_id_matches_nothing_witness :
  handle_find (mkQueryEvent (request "PATIENT" "") never)
    [instance_of "123" "1.2.3"; instance_of "456" "1.2.4"]
  = ([], Returned).
Proof. apply C7_empty_patient_id_matches_nothing; reflexivity. Defined.

(** Once a stored value is in [patient_ids_seen], instances that carry it add
    nothing. *)
Lemma find_matches_all_seen pid raw (insts : list Dataset) : ∀ seen : gset string,
  raw ∈ seen →
  (∀ inst p, inst ∈ insts → shares_trimmed_id pid inst p → p = raw) →
  find_matches pid seen insts = [].
Proof.
  induction insts as [|inst rest IH]; intros seen Hseen Hsame; simpl; [done|].
  assert (Hrest : ∀ i p, i ∈ rest → shares_trimmed_id pid i p → p = raw)
    by (intros i p Hi; apply Hsame; by right).
  destruct (attr inst "PatientID") as [p|] eqn:Hp; [|by apply IH].
  destruct (bool_decide (PyStr.strip p = PyStr.strip pid)) eqn:Hm; simpl; [|by apply IH].
  apply bool_decide_eq_true in Hm.
  assert (p = raw) as -> by (apply (Hsame inst); [left|done]).
  rewrite bool_decide_eq_false_2 by (intros Hn; by apply Hn).
  by apply IH.
Qed.

(** When all the instances that share the trimmed id carry one stored value,
    and there is such an instance, the loop produces one result. *)
Lemma find_matches_single pid raw (insts : list Dataset) : ∀ seen : gset string,
  raw ∉ seen →
  (∀ inst p, inst ∈ insts → shares_trimmed_id pid inst p → p = raw) →
  (∃ inst, inst ∈ insts ∧ shares_trimmed_id pid inst raw) →
  ∃ m, find_matches pid seen insts = [m]
       ∧ attr m "PatientID" = Some raw
       ∧ attr m "QueryRetrieveLevel" = Some "PATIENT".
Proof.
  induction insts as [|inst rest IH]; intros seen Hseen Hsame (i & Hi & Hshare).
  { by apply elem_of_nil in Hi. }
  assert (Hrest : ∀ i p, i ∈ rest → shares_trimmed_id pid i p → p = raw)
    by (intros j p Hj; apply Hsame; by right).
  simpl.
  destruct (attr inst "PatientID") as [p|] eqn:Hp.
  - destruct (bool_decide (PyStr.strip p = PyStr.strip pid)) eqn:Hm; simpl.
    + apply bool_decide_eq_true in Hm.
      assert (p = raw) as -> by (apply (Hsame inst); [left|done]).
      rewrite bool_decide_eq_true_2 by done.
      rewrite (find_matches_all_seen pid raw rest);
        [|apply elem_of_union; left; by apply elem_of_singleton|done].
      eexists; split; [done|].
      unfold attr, set_attr, Dataset_new.
      destruct (elements inst !! "PatientName"); simpl; by simplify_map_eq.
    + apply bool_decide_eq_false in Hm.
      apply IH; [done..|].
      apply elem_of_cons in Hi as [->|Hi']; [|by eauto].
      destruct Hshare as [Hq Hs]. unfold attr in *. congruence.
  - apply IH; [done..|].
    apply elem_of_cons in Hi as [->|Hi']; [|by eauto].
    destruct Hshare as [Hq _]. unfold attr in *. congruence.
Qed.

(** C1, the code at the failing input: two stored instances whose PatientIDs
    differ only by a leading blank share the trimmed PatientID "123". Both
    pass the test on the trimmed value, and since [patient_ids_seen] holds the
    untrimmed strings, neither hides the other: a PATIENT-level query for
    "123" yields two results, one per stored spelling. *)
Lemma C1_two_results_for_one_trimmed_id :
  let stored := [instance_of " 123" "1.2.3"; instance_of "123" "1.2.4"] in
  let event := mkQueryEvent (request "PATIENT" "123") never in
  (∀ inst, inst ∈ stored → ∃ p, shares_trimmed_id "123" inst p)
  ∧ (λ m, attr m "PatientID") <$> match_results (fst (handle_find event stored))
    = [Some " 123"; Some "123"]
  ∧ length (match_results (fst (handle_find event stored))) = 2.
Proof.
  intros stored event. split; [|split; vm_compute; reflexivity].
  intros inst Hin. unfold stored in Hin.
  apply elem_of_cons in Hin as [->|Hin]; [by exists " 123"|].
  apply elem_of_cons in Hin as [->|Hin]; [by exists "123"|].
  by apply elem_of_nil in Hin.
Qed.

(** Where the stored spellings agree the loop does de-duplicate: for a
    PATIENT-level query with a non-empty PatientID, when the stored instances
    that share its trimmed PatientID (there is one at least) all carry the
    same stored PatientID string, [handle_find] yields one item however many
    they are: the result for that patient with status 0xFF00, or the
    cancellation marker 0xFE00 in its place when cancellation is signalled at
    the check made before it. *)
Lemma find_one_result_when_stored_ids_agree (event : query_event)
    (stored : list Dataset) (pid raw : string) :
  attr (identifier event) "QueryRetrieveLevel" = Some "PATIENT" →
  attr (identifier event) "PatientID" = Some pid →
  pid ≠ "" →
  (∃ inst, inst ∈ stored ∧ shares_trimmed_id pid inst raw) →
  (∀ inst p, inst ∈ stored → shares_trimmed_id pid inst p → p = raw) →
  ∃ m, attr m "PatientID" = Some raw
       ∧ attr m "QueryRetrieveLevel" = Some "PATIENT"
       ∧ handle_find event stored
         = (if is_cancelled event 0 then [(0xFE00%Z, None)] else [(0xFF00%Z, Some m)],
            Returned).
Proof.
  intros Hl Hp Hne Hex Hsame.
  destruct (find_matches_single pid raw stored ∅) as (m & Hm & Hid & Hlev);
    [set_solver|done..|].
  exists m. split_and!; [done..|].
  unfold handle_find. rewrite Hl, Hp. simpl.
  destruct pid; [done|]. simpl PyStr.truthy. cbv iota.
  rewrite Hm. simpl. by destruct (is_cancelled event 0).
Qed.

(** Three instances of patient "123" among four, queried as " 123 ": one
    result. *)
Example find_three_instances_one_result :
  let stored := [instance_of "123" "1.2.3"; instance_of "456" "1.2.4";
                 instance_of "123" "1.2.5"; instance_of "123" "1.2.6"] in
  let event := mkQueryEvent (request "PATIENT" " 123 ") never in
  (λ m, attr m "PatientID") <$> match_results (fst (handle_find event stored))
  = [Some "123"].
Proof. vm_compute. reflexivity. Qed.

(** ** Move *)

Section MoveProperties.

Variable SPC : list string.

Lemma yields_app t1 t2 : yields (t1 ++ t2) = yields t1 ++ yields t2.
Proof. unfold yields. apply omap_app. Qed.

Lemma sent_app t1 t2 : sent (t1 ++ t2) = sent t1 ++ sent t2.
Proof. unfold sent. apply omap_app. Qed.

Lemma select_candidates_has_uid ds level stored :
  Forall has_uid stored → Forall has_uid (select_candidates ds level stored).
Proof.
  intros H. unfold select_candidates.
  destruct (bool_decide (level = "PATIENT")); [|constructor].
  destruct (attr ds "PatientID"); [|constructor].
  apply Forall_forall. intros x [_ Hx]%list_elem_of_filter.
  by eapply Forall_forall.
Qed.

Lemma yields_cons a t :
  yields (a :: t) = match a with Yield v => [v] | _ => [] end ++ yields t.
Proof. by destruct a. Qed.

Lemma sent_cons a t :
  sent (a :: t) = match a with SendCStore i => [i] | _ => [] end ++ sent t.
Proof. by destruct a. Qed.

Lemma associations_cons a t :
  associations (a :: t)
  = match a with Associate _ _ _ c => [c] | _ => [] end ++ associations t.
Proof. by destruct a. Qed.

Lemma sessions_opened_cons a t :
  sessions_opened (a :: t)
  = match a with Associate _ _ _ _ => 1 | _ => 0 end + sessions_opened t.
Proof. by destruct a. Qed.

(** The sending loop when cancellation is first seen at its [K]-th check:
    one status per candidate before it, one session each, then the marker. *)
Lemma send_loop_cancelled event addr port dest (K : nat) :
  ∀ (to_send : list Dataset) (k : nat),
  Forall has_uid to_send →
  K < length to_send →
  (∀ j, j < K → mv_is_cancelled event (k + j) = false) →
  mv_is_cancelled event (k + K) = true →
  ∃ t, send_loop event addr port dest k to_send = (t, Returned)
       ∧ yields t
         = ((λ j, Status (item_status (mv_network event (k + j)))) <$> seq 0 K)
           ++ [Status 0xFE00%Z]
       ∧ associations t = storage_contexts <$> take K to_send
       ∧ sublist (sent t) (take K to_send).
Proof.
  induction K as [|K IH]; intros to_send k Hwf Hlen Hbefore Hat.
  - destruct to_send as [|inst rest]; simpl in Hlen; [lia|].
    rewrite Nat.add_0_r in Hat. simpl. rewrite Hat.
    eexists; split_and!; [done..|]. simpl. constructor.
  - destruct to_send as [|inst rest]; simpl in Hlen; [lia|].
    apply Forall_cons in Hwf as [[uid Huid] Hwf].
    destruct (IH rest (S k) Hwf) as (t & Ht & Hy & Hs & Hsub).
    + lia.
    + intros j Hj. replace (S k + j) with (k + S j) by lia. apply Hbefore. lia.
    + by replace (S k + K) with (k + S K) by lia.
    + pose proof (Hbefore 0 ltac:(lia)) as H0. rewrite Nat.add_0_r in H0.
      assert (Hshift :
        ((λ j, Status (item_status (mv_network event (k + j)))) <$> seq 0 (S K))
        = Status (item_status (mv_network event k))
          :: ((λ j, Status (item_status (mv_network event (S k + j)))) <$> seq 0 K)).
      { simpl. rewrite Nat.add_0_r. f_equal.
        rewrite <-(fmap_S_seq 0), <-list_fmap_compose.
        apply list_fmap_ext. intros _ j _. simpl.
        by replace (k + S j) with (S (k + j)) by lia. }
      rewrite Hshift. clear Hshift.
      simpl send_loop. rewrite H0, Ht, Huid.
      destruct (mv_network event k) as [|status]; eexists; (split; [done|]);
        rewrite !yields_cons, !sent_cons, !associations_cons, Hy, Hs;
        simpl; split_and!; try done.
      * by apply sublist_cons.
      * by apply sublist_skip.
Qed.

(** The sending loop when nothing is cancelled and every transfer is
    accepted. *)
Lemma send_loop_all_accepted event addr port dest :
  ∀ (to_send : list Dataset) (k : nat),
  Forall has_uid to_send →
  (∀ j, j < length to_send →
        mv_is_cancelled event (k + j) = false
        ∧ mv_network event (k + j) = Established (Some 0%Z)) →
  ∃ t, send_loop event addr port dest k to_send = (t, Returned)
       ∧ yields t = replicate (length to_send) (Status 0xFF00%Z)
       ∧ sent t = to_send
       ∧ sessions_opened t = length to_send.
Proof.
  induction to_send as [|inst rest IH]; intros k Hwf Hok.
  - by exists [].
  - apply Forall_cons in Hwf as [[uid Huid] Hwf].
    destruct (IH (S k) Hwf) as (t & Ht & Hy & Hs & Hn).
    { intros j Hj. replace (S k + j) with (k + S j) by lia. apply Hok. simpl. lia. }
    destruct (Hok 0) as [Hc Hn0]; [simpl; lia|]. rewrite Nat.add_0_r in Hc, Hn0.
    simpl send_loop. rewrite Hc, Hn0, Huid, Ht.
    eexists; split; [done|].
    rewrite !yields_cons, !sent_cons, !sessions_opened_cons, Hy, Hs, Hn.
    done.
Qed.




(** What a caller leaves undone is the end of the list. *)
Lemma driven_prefix stops (t : list action) : driven stops t `prefix_of` t.
Proof.
  induction t as [|a t IH]; [done|].
  destruct a as [v| | |]; simpl; try by apply prefix_cons.
  destruct (stops v); [|by apply prefix_cons].
  by exists t.
Qed.

End MoveProperties.

(** C6: a move whose destination is not in [KNOWN_AE_DESTINATIONS] yields the
    single status 0xA801 and returns; nothing else happens: no destination or
    count is yielded, no session is opened, nothing is sent. *)
Theorem C6_unknown_destination (SPC : list string) (event : move_event)
    (stored : list Dataset) :
  KNOWN_AE_DESTINATIONS !! move_destination event = None →
  handle_move SPC event stored = ([Yield (Status 0xA801%Z)], Returned)
  ∧ yields (fst (handle_move SPC event stored)) = [Status 0xA801%Z]
  ∧ sessions_opened (fst (handle_move SPC event stored)) = 0
  ∧ sent (fst (handle_move SPC event stored)) = [].
Proof. intros H. unfold handle_move. rewrite H. done. Qed.

Lemma C6_unknown_destination_witness :
  let event := mkMoveEvent (request "PATIENT" "123") "MY_BACKEND" never
                 (λ _, Established (Some 0%Z)) in
  let stored := [instance_of "123" "1.2.3"] in
  handle_move [] event stored = ([Yield (Status 0xA801%Z)], Returned)
  ∧ yields (fst (handle_move [] event stored)) = [Status 0xA801%Z]
  ∧ sessions_opened (fst (handle_move [] event stored)) = 0
  ∧ sent (fst (handle_move [] event stored)) = [].
Proof. intros event stored. apply C6_unknown_destination. reflexivity. Defined.



(** C4: a move to a known destination with [N] candidates, where
    [event.is_cancelled] is false at the checks before the first [K]
    candidates and true at the next one ([K < N]). After the destination and
    the count, the handler yields [K] statuses, one per candidate handled,
    then 0xFE00, and returns. [K] sessions were opened, those of the first
    [K] candidates in order, and what was sent is among these candidates. *)
Theorem C4_cancel_after_K_transfers (SPC : list string) (event : move_event)
    (stored : list Dataset) (addr : string) (port : Z) (level : string) (K : nat) :
  KNOWN_AE_DESTINATIONS !! move_destination event = Some (addr, port) →
  attr (mv_identifier event) "QueryRetrieveLevel" = Some level →
  Forall has_uid stored →
  K < length (select_candidates (mv_identifier event) level stored) →
  (∀ j, j < K → mv_is_cancelled event j = false) →
  mv_is_cancelled event K = true →
  ∃ (t : list action) (outcomes : list Z),
    handle_move SPC event stored = (t, Returned)
    ∧ yields t
      = [Destination addr port (move_destination event) (requested_contexts SPC);
         SubOperations (length (select_candidates (mv_identifier event) level stored))]
        ++ (Status <$> outcomes) ++ [Status 0xFE00%Z]
    ∧ length outcomes = K
    ∧ outcomes = (λ j, item_status (mv_network event j)) <$> seq 0 K
    ∧ sessions_opened t = K
    ∧ associations t
      = storage_contexts <$> take K (select_candidates (mv_identifier event) level stored)
    ∧ sublist (sent t) (take K (select_candidates (mv_identifier event) level stored)).
Proof.
  intros Hdest Hlevel Hwf HK Hbefore Hat.
  destruct (send_loop_cancelled event addr port (move_destination event) K
              (select_candidates (mv_identifier event) level stored) 0)
    as (t & Ht & Hy & Hs & Hsub); [by apply select_candidates_has_uid|done..|].
  eexists _, ((λ j, item_status (mv_network event j)) <$> seq 0 K).
  unfold handle_move. rewrite Hdest, Hlevel, Ht.
  split; [done|].
  unfold sessions_opened.
  rewrite !yields_cons, !sent_cons, !associations_cons, Hy, Hs.
  simpl. rewrite <-list_fmap_compose, !length_fmap, length_seq, length_take.
  split_and!; try done. lia.
Qed.

Lemma C4_cancel_after_K_transfers_witness :
  let stored := [instance_of "123" "1.2.3"; instance_of "123" "1.2.4";
                 instance_of "123" "1.2.5"] in
  let event := mkMoveEvent (request "PATIENT" "123") "TESTSCU"
                 (λ k, (2 <=? k)%nat) (λ _, Established (Some 0%Z)) in
  ∃ (t : list action) (outcomes : list Z),
    handle_move [] event stored = (t, Returned)
    ∧ yields t
      = [Destination "127.0.0.1" 11113 "TESTSCU" (requested_contexts []);
         SubOperations (length (select_candidates (request "PATIENT" "123") "PATIENT" stored))]
        ++ (Status <$> outcomes) ++ [Status 0xFE00%Z]
    ∧ length outcomes = 2
    ∧ outcomes = (λ j, item_status (mv_network event j)) <$> seq 0 2
    ∧ sessions_opened t = 2
    ∧ associations t
      = storage_contexts
        <$> take 2 (select_candidates (request "PATIENT" "123") "PATIENT" stored)
    ∧ sublist (sent t) (take 2 (select_candidates (request "PATIENT" "123") "PATIENT" stored)).
Proof.
  intros stored event.
  apply (C4_cancel_after_K_transfers [] event stored "127.0.0.1" 11113 "PATIENT" 2).
  - reflexivity.
  - reflexivity.
  - repeat constructor; by eexists.
  - vm_compute. lia.
  - intros j Hj. destruct j as [|[|j]]; [reflexivity..|lia].
  - reflexivity.
Defined.

(** C5, the claim as written fails: a STUDY-level move for PatientID "123" to
    a known destination, with one stored instance of that patient, yields the
    count 0. *)
Lemma C5_study_level_move_counts_nothing :
  let stored := [instance_of "123" "1.2.3"] in
  let event := mkMoveEvent (request "STUDY" "123") "TESTSCU" never
                 (λ _, Established (Some 0%Z)) in
  length (filter (λ inst, same_patient "123" inst) stored) = 1
  ∧ handle_move [] event stored
    = ([Yield (Destination "127.0.0.1" 11113 "TESTSCU" (requested_contexts []));
        Yield (SubOperations 0)], Returned).
Proof. vm_compute. done. Qed.

(** At any level other than PATIENT a move to a known destination selects
    nothing. *)
Lemma handle_move_other_level (SPC : list string) (event : move_event)
    (stored : list Dataset) (addr : string) (port : Z) (level : string) :
  KNOWN_AE_DESTINATIONS !! move_destination event = Some (addr, port) →
  attr (mv_identifier event) "QueryRetrieveLevel" = Some level →
  level ≠ "PATIENT" →
  handle_move SPC event stored
  = ([Yield (Destination addr port (move_destination event) (requested_contexts SPC));
      Yield (SubOperations 0)], Returned).
Proof.
  intros Hd Hl Hne. unfold handle_move, select_candidates.
  rewrite Hd, Hl. by rewrite bool_decide_eq_false_2.
Qed.

(** C5, amended: for every PATIENT-level move that carries a PatientID, to a
    known destination, [handle_move] first yields the resolved destination,
    then the count [n] of stored instances whose trimmed PatientID is the
    request's trimmed PatientID, and only then opens sessions. When [n = 0]
    nothing follows. When no cancellation is seen and each of the [n]
    transfers is accepted, [n] statuses 0xFF00 follow, the instances having
    been sent in the order in which they were stored, one session each. *)
Theorem C5_count_then_transfers (SPC : list string) (event : move_event)
    (stored : list Dataset) (addr : string) (port : Z) (pid : string) :
  KNOWN_AE_DESTINATIONS !! move_destination event = Some (addr, port) →
  attr (mv_identifier event) "QueryRetrieveLevel" = Some "PATIENT" →
  attr (mv_identifier event) "PatientID" = Some pid →
  ∃ (rest : list action) (fin : ending),
    handle_move SPC event stored
    = (Yield (Destination addr port (move_destination event) (requested_contexts SPC))
       :: Yield (SubOperations (length (filter (λ inst, same_patient pid inst) stored)))
       :: rest, fin)
    ∧ (length (filter (λ inst, same_patient pid inst) stored) = 0 →
       rest = [] ∧ fin = Returned)
    ∧ (Forall has_uid stored →
       (∀ j, j < length (filter (λ inst, same_patient pid inst) stored) →
             mv_is_cancelled event j = false
             ∧ mv_network event j = Established (Some 0%Z)) →
       fin = Returned
       ∧ yields rest
         = replicate (length (filter (λ inst, same_patient pid inst) stored))
             (Status 0xFF00%Z)
       ∧ sent rest = filter (λ inst, same_patient pid inst) stored
       ∧ sessions_opened rest
         = length (filter (λ inst, same_patient pid inst) stored)).
Proof.
  intros Hdest Hlevel Hpid.
  unfold handle_move. rewrite Hdest, Hlevel.
  assert (Hsel : select_candidates (mv_identifier event) "PATIENT" stored
                 = filter (λ inst, same_patient pid inst) stored).
  { unfold select_candidates. by rewrite Hpid. }
  rewrite Hsel.
  set (to_send := filter (λ inst, same_patient pid inst) stored).
  destruct (send_loop event addr port (move_destination event) 0 to_send)
    as [acts fin] eqn:Hloop.
  exists acts, fin. split; [done|]. split.
  - intros Hn. destruct to_send; [|done]. simpl in Hloop. by injection Hloop as <- <-.
  - intros Hwf Hok.
    destruct (send_loop_all_accepted event addr port (move_destination event) to_send 0)
      as (t & Ht & Hy & Hs & Hn); [| done |].
    { apply Forall_forall. intros x [_ Hx]%list_elem_of_filter.
      by eapply Forall_forall. }
    rewrite Hloop in Ht. by injection Ht as <- <-.
Qed.

Lemma C5_count_then_transfers_witness :
  let stored := [instance_of "123" "1.2.3"; instance_of "456" "1.2.4";
                 instance_of " 123" "1.2.5"] in
  let event := mkMoveEvent (request "PATIENT" "123") "TESTSCU" never
                 (λ _, Established (Some 0%Z)) in
  ∃ (rest : list action) (fin : ending),
    handle_move [] event stored
    = (Yield (Destination "127.0.0.1" 11113 "TESTSCU" (requested_contexts []))
       :: Yield (SubOperations 2) :: rest, fin)
    ∧ fin = Returned
    ∧ yields rest = [Status 0xFF00%Z; Status 0xFF00%Z]
    ∧ sent rest = [instance_of "123" "1.2.3"; instance_of " 123" "1.2.5"]
    ∧ sessions_opened rest = 2.
Proof.
  intros stored event.
  destruct (C5_count_then_transfers [] event stored "127.0.0.1" 11113 "123")
    as (rest & fin & Hrun & _ & Hall); [reflexivity..|].
  exists rest, fin. split; [exact Hrun|].
  apply Hall.
  - repeat constructor; by eexists.
  - intros j _. split; reflexivity.
Defined.

(** ** The detector *)

Import Detector.

Lemma current_files_summary obs : current_files (summary obs) = latest obs.
Proof. unfold summary, latest. by destruct (last obs). Qed.

Lemma unchanged_polls_snoc obs files :
  unchanged_polls (obs ++ [files])
  = match last obs with
    | Some prev =>
        if bool_decide (length files = length prev)
        then S (unchanged_polls obs) else 0
    | None => 0
    end.
Proof.
  unfold unchanged_polls. rewrite fmap_app, reverse_app. simpl.
  destruct obs as [|o obs _] using rev_ind; [done|].
  rewrite last_snoc, fmap_app, reverse_app. simpl.
  case_bool_decide as E; [|done]. by rewrite E.
Qed.

Lemma poll_summary c obs names :
  poll c (summary obs) (Some names)
  = (summary (obs ++ [dcm_files names]),
     bool_decide (c ≤ Z.of_nat (unchanged_polls (obs ++ [dcm_files names])))%Z).
Proof.
  assert (Hnew : summary (obs ++ [dcm_files names])
                 = mkPoll (Z.of_nat (unchanged_polls (obs ++ [dcm_files names])))
                     (Z.of_nat (length (dcm_files names))) (dcm_files names)).
  { unfold summary. by rewrite last_snoc. }
  rewrite Hnew, unchanged_polls_snoc. clear Hnew.
  unfold poll, summary. destruct (last obs) as [prev|]; simpl.
  - destruct (decide (length (dcm_files names) = length prev)) as [E|E].
    + rewrite (bool_decide_eq_true_2 (Z.of_nat _ = _)) by (by rewrite E).
      rewrite !(bool_decide_eq_true_2 (length _ = _)) by done.
      simpl. rewrite E, Nat2Z.inj_succ. done.
    + rewrite (bool_decide_eq_false_2 (Z.of_nat _ = _)) by lia.
      rewrite !(bool_decide_eq_false_2 (length _ = _)) by done.
      done.
  - rewrite bool_decide_eq_false_2 by lia. done.
Qed.

Lemma seen_S w n :
  seen w (S n)
  = seen w n ++ match listing w n with
                | Some names => [dcm_files names]
                | None => []
                end.
Proof.
  unfold seen. rewrite seq_S, omap_app. simpl.
  by destruct (listing w n).
Qed.

Lemma seen_nothing w n : (∀ k, k < n → listing w k = None) → seen w n = [].
Proof.
  induction n as [|n IH]; intros H; [done|].
  rewrite seen_S, IH by (intros; apply H; lia).
  by rewrite H by lia.
Qed.

Lemma loop_reaches_stop w timeout c k :
  stops_at w timeout c k →
  ∀ d fuel j,
    k = j + d → d < fuel →
    (∀ i, j ≤ i < k → ¬ stops_at w timeout c i) →
    loop w timeout c fuel j (summary (seen w j)) = Some (outcome_at w timeout k).
Proof.
  intros Hstop. induction d as [|d IH]; intros fuel j Hk Hfuel Hnot.
  - rewrite Nat.add_0_r in Hk. subst j.
    destruct fuel as [|fuel]; [lia|]. simpl. unfold outcome_at.
    destruct (in_time w timeout k) eqn:Ht.
    + destruct Hstop as [?|[[names Hl] Hc]]; [congruence|].
      rewrite Hl, poll_summary.
      rewrite seen_S, Hl in Hc |- *.
      rewrite bool_decide_eq_true_2 by done.
      by rewrite current_files_summary.
    + by rewrite current_files_summary.
  - destruct fuel as [|fuel]; [lia|]. simpl.
    assert (Hj : ¬ stops_at w timeout c j) by (apply Hnot; lia).
    destruct (in_time w timeout j) eqn:Ht; [|by destruct Hj; left].
    assert (Hnext : loop w timeout c fuel (S j) (summary (seen w (S j)))
                    = Some (outcome_at w timeout k)).
    { apply (IH fuel (S j)); [lia|lia|]. intros i Hi. apply Hnot. lia. }
    destruct (listing w j) as [names|] eqn:Hl.
    + rewrite poll_summary.
      rewrite bool_decide_eq_false_2.
      * rewrite seen_S, Hl in Hnext. done.
      * intros Hc. apply Hj. right. split; [by eexists|].
        by rewrite seen_S, Hl.
    + simpl. rewrite seen_S, Hl, app_nil_r in Hnext. done.
Qed.

Lemma least_stop (P : nat → Prop) `{∀ n, Decision (P n)} (n : nat) :
  P n → ∃ k : nat, (k ≤ n)%nat ∧ P k ∧ ∀ j, j < k → ¬ P j.
Proof.
  intros Hn.
  assert (G : ∀ d m, n = m + d → (∀ j, j < m → ¬ P j) →
                     ∃ k : nat, (k ≤ n)%nat ∧ P k ∧ ∀ j, j < k → ¬ P j).
  { induction d as [|d IH]; intros m Hm Hbelow.
    - exists n. rewrite Nat.add_0_r in Hm. subst m. done.
    - destruct (decide (P m)) as [Hp|Hp].
      + exists m. split; [lia|done].
      + apply (IH (S m)); [lia|]. intros j Hj.
        destruct (decide (j = m)) as [->|]; [done|]. apply Hbelow. lia. }
  apply (G n 0); [done|]. intros j Hj. lia.
Qed.


Lemma in_time_true w timeout k :
  in_time w timeout k = true ↔ (now w (S k) - now w 0 < timeout)%Q.
Proof.
  unfold in_time. destruct (Qlt_le_dec _ _) as [H|H]; split; try done.
  intros H'. by apply Qlt_not_le in H'.
Qed.

Lemma in_time_false w timeout k :
  in_time w timeout k = false ↔ (timeout <= now w (S k) - now w 0)%Q.
Proof.
  unfold in_time. destruct (Qlt_le_dec _ _) as [H|H]; split; try done.
  intros H'. by apply Qlt_not_le in H.
Qed.

(** With [timeout = 10] and [consecutive = 2] the call returns at the fifth
    poll (2 s), with both items. *)
Example two_arrivals_run :
  run two_arrivals 10 2 30 = Some (mkStop ["a.dcm"; "b.dcm"] 5 4 false).
Proof. vm_compute. reflexivity. Qed.

(** The rule in the specification's words, and the loop. *)
Lemma items_dcm_files names : items names = dcm_files names.
Proof.
  unfold items, dcm_files. apply list_filter_iff.
  intros fname. by rewrite Is_true_true.
Qed.

Lemma observed_seen w n : observed w n = seen w n.
Proof.
  unfold observed, seen. induction (seq 0 n) as [|k l IH]; [done|].
  cbn [omap list_omap]. rewrite IH.
  destruct (listing w k) as [names|]; cbn [fmap option_fmap option_map]; [|done].
  by rewrite items_dcm_files.
Qed.

Lemma stopping_point_first_stop w timeout c k :
  stopping_point w timeout c k ↔ first_stop w timeout c k.
Proof.
  assert (H : ∀ j, elapsed w timeout j ∨ stable w c j ↔ stops_at w timeout c j).
  { intros j. unfold stops_at, settled, stable, elapsed.
    by rewrite in_time_false, observed_seen. }
  unfold stopping_point, first_stop. rewrite H.
  split; intros [? Hbelow]; (split; [done|]); intros j Hj; [rewrite <-H|rewrite H];
    by apply Hbelow.
Qed.

(** C9: the call stops at the earliest iteration [k] at which the timeout
    has elapsed when the loop condition is read, or the poll finds the
    folder with an item count unchanged for [consecutive] polls in a row;
    there is such an iteration as soon as the clock reaches the timeout.
    Stopping on the timeout, it has made [k] polls and returns the items of
    the most recent listing that these polls found ([[]] when none found the
    folder): the items at the last poll, which may be fewer than the folder
    holds by then. Stopping on stability, it has made [k + 1] polls and
    returns the items of the listing that poll [k] found. The items are the
    names that end in [.dcm]. *)
Theorem C9_stops_at_first_of_stable_or_timeout (w : world) (timeout : Q)
    (consecutive : Z) (n : nat) :
  (timeout <= now w (S n) - now w 0)%Q →
  (∃ k : nat, (k ≤ n)%nat ∧ stopping_point w timeout consecutive k)
  ∧ ∀ k fuel,
      stopping_point w timeout consecutive k →
      k < fuel →
      ((timeout <= now w (S k) - now w 0)%Q →
       run w timeout consecutive fuel
       = Some (mkStop (latest (observed w k)) k k true)
       ∧ wait_for_files w timeout consecutive fuel = Some (latest (observed w k)))
      ∧ ((now w (S k) - now w 0 < timeout)%Q →
         ∃ names,
           listing w k = Some names
           ∧ run w timeout consecutive fuel
             = Some (mkStop (items names) (S k) k false)
           ∧ wait_for_files w timeout consecutive fuel = Some (items names)).
Proof.
  intros Hn. split.
  - destruct (least_stop (stops_at w timeout consecutive) n)
      as (k & Hk & Hstop & Hfirst); [left; by apply in_time_false|].
    exists k. split; [done|]. apply stopping_point_first_stop. by split.
  - intros k fuel [Hstop Hfirst]%stopping_point_first_stop Hfuel.
    assert (Hrun : run w timeout consecutive fuel = Some (outcome_at w timeout k)).
    { apply (loop_reaches_stop w timeout consecutive k Hstop k fuel 0); [done..|].
      intros i Hi. apply Hfirst. lia. }
    unfold wait_for_files. rewrite Hrun. unfold outcome_at. split.
    + intros He%in_time_false. rewrite He. by rewrite observed_seen.
    + intros Hlt%in_time_true. rewrite Hlt.
      destruct Hstop as [?|[[names Hl] _]]; [congruence|].
      exists names. split; [done|].
      rewrite seen_S, Hl. unfold latest. rewrite last_snoc. simpl.
      by rewrite items_dcm_files.
Qed.

Lemma C9_stops_at_first_of_stable_or_timeout_witness :
  (10 <= now two_arrivals 21 - now two_arrivals 0)%Q
  ∧ stopping_point two_arrivals 10 2 4
  ∧ run two_arrivals 10 2 30 = Some (mkStop ["a.dcm"; "b.dcm"] 5 4 false)
  ∧ wait_for_files two_arrivals 10 2 30 = Some ["a.dcm"; "b.dcm"].
Proof.
  assert (Hclock : (10 <= now two_arrivals 21 - now two_arrivals 0)%Q)
    by (vm_compute; discriminate).
  assert (Hstop : stopping_point two_arrivals 10 2 4).
  { split.
    - right. split; [by eexists|]. vm_compute. discriminate.
    - intros j Hj [He|[_ Hs]].
      + destruct j as [|[|[|[|j]]]]; [| | | |lia]; vm_compute in He; by apply He.
      + destruct j as [|[|[|[|j]]]]; [| | | |lia]; vm_compute in Hs; by apply Hs. }
  split; [exact Hclock|]. split; [exact Hstop|].
  destruct (proj2 (C9_stops_at_first_of_stable_or_timeout two_arrivals 10 2 20 Hclock)
              4 30 Hstop ltac:(lia)) as [_ Hstable].
  destruct Hstable as (names & Hl & Hrun & Hwait); [vm_compute; reflexivity|].
  vm_compute in Hl. injection Hl as <-.
  split; [exact Hrun|exact Hwait].
Defined.

(** C10: a poll that does not find the folder changes none of the loop
    variables and never breaks the loop. When no poll finds the folder before
    the timeout has elapsed, the call goes through every iteration the clock
    allows, sleeping after each, leaves through the loop condition and
    returns the empty list. *)
Theorem C10_absent_folder_waits_out_timeout (w : world) (timeout : Q)
    (consecutive : Z) (n : nat) :
  (∀ k, k < n → listing w k = None) →
  (∀ k, k < n → (now w (S k) - now w 0 < timeout)%Q) →
  (timeout <= now w (S n) - now w 0)%Q →
  (∀ st, poll consecutive st None = (st, false))
  ∧ ∀ fuel, n < fuel →
      run w timeout consecutive fuel = Some (mkStop [] n n true)
      ∧ wait_for_files w timeout consecutive fuel = Some [].
Proof.
  intros Hnone Hbefore Hn. split; [done|].
  intros fuel Hfuel.
  apply in_time_false in Hn.
  assert (Hrun : run w timeout consecutive fuel = Some (outcome_at w timeout n)).
  { apply (loop_reaches_stop w timeout consecutive n (or_introl Hn) n fuel 0); [done..|].
    intros i Hi [Ht|[[names Hl] _]].
    - rewrite (proj2 (in_time_true w timeout i)) in Ht by (apply Hbefore; lia). done.
    - rewrite Hnone in Hl by lia. done. }
  unfold wait_for_files. rewrite Hrun. unfold outcome_at.
  by rewrite Hn, seen_nothing.
Qed.

Lemma C10_absent_folder_waits_out_timeout_witness :
  (∀ st, poll 2 st None = (st, false))
  ∧ ∀ fuel, 20 < fuel →
      run no_folder 10 2 fuel = Some (mkStop [] 20 20 true)
      ∧ wait_for_files no_folder 10 2 fuel = Some [].
Proof.
  apply (C10_absent_folder_waits_out_timeout no_folder 10 2 20).
  - reflexivity.
  - intros k Hk. unfold Qlt. simpl.
    destruct k as [|k]; simpl; lia.
  - vm_compute. discriminate.
Defined.

(** * Further properties *)

(** ** Strings *)

Lemma list_of_append s1 s2 :
  list_ascii_of_string (s1 +:+ s2)
  = list_ascii_of_string s1 ++ list_ascii_of_string s2.
Proof. induction s1 as [|a s1 IH]; simpl; [done|]. by rewrite <-IH. Qed.

Lemma list_of_rev_app s1 : ∀ s2,
  list_ascii_of_string (String.rev_app s1 s2)
  = reverse (list_ascii_of_string s1) ++ list_ascii_of_string s2.
Proof.
  induction s1 as [|a s1 IH]; intros s2; simpl; [done|].
  by rewrite IH, reverse_cons, <-app_assoc.
Qed.

Lemma list_of_rev s :
  list_ascii_of_string (String.rev s) = reverse (list_ascii_of_string s).
Proof. unfold String.rev. by rewrite list_of_rev_app, app_nil_r. Qed.

Lemma list_of_inj s1 s2 :
  list_ascii_of_string s1 = list_ascii_of_string s2 → s1 = s2.
Proof.
  intros H. rewrite <-(string_of_list_ascii_of_string s1),
    <-(string_of_list_ascii_of_string s2). by rewrite H.
Qed.

Lemma string_rev_involutive s : String.rev (String.rev s) = s.
Proof. apply list_of_inj. by rewrite !list_of_rev, reverse_involutive. Qed.

Lemma string_rev_append s1 s2 :
  String.rev (s1 +:+ s2) = String.rev s2 +:+ String.rev s1.
Proof.
  apply list_of_inj.
  by rewrite list_of_rev, !list_of_append, !list_of_rev, reverse_app.
Qed.

Lemma append_suffix_inj s1 s2 t : s1 +:+ t = s2 +:+ t → s1 = s2.
Proof.
  intros H. apply list_of_inj.
  apply (f_equal list_ascii_of_string) in H. rewrite !list_of_append in H.
  by apply app_inv_tail in H.
Qed.

Lemma prefix_append s t : String.prefix s (s +:+ t) = true.
Proof.
  induction s as [|a s IH]; simpl; [by destruct t|].
  destruct (ascii_dec a a); [done|congruence].
Qed.

(** A name made by appending a suffix ends with it. *)
Lemma endswith_append s suffix : PyStr.endswith (s +:+ suffix) suffix = true.
Proof. unfold PyStr.endswith. rewrite string_rev_append. apply prefix_append. Qed.

Lemma prefix_true_append p : ∀ s, String.prefix p s = true → ∃ t, s = p +:+ t.
Proof.
  induction p as [|a p IH]; intros s H; [by exists s|].
  destruct s as [|b s]; [done|]. simpl in H.
  destruct (ascii_dec a b) as [->|]; [|done].
  destruct (IH s H) as [t ->]. by exists t.
Qed.

(** The names that end with a suffix are those made by appending it. *)
Lemma endswith_true s suffix :
  PyStr.endswith s suffix = true ↔ ∃ stem, s = stem +:+ suffix.
Proof.
  split; [|intros [stem ->]; apply endswith_append].
  unfold PyStr.endswith. intros [t Ht]%prefix_true_append.
  exists (String.rev t).
  rewrite <-(string_rev_involutive s), Ht, string_rev_append.
  by rewrite string_rev_involutive.
Qed.

Lemma lstrip_clean s : clean_head (PyStr.lstrip s).
Proof.
  induction s as [|a s IH]; simpl; [done|].
  destruct (PyStr.isspace a) eqn:E; [done|]. simpl. done.
Qed.

Lemma lstrip_of_clean s : clean_head s → PyStr.lstrip s = s.
Proof. destruct s as [|a s]; simpl; [done|]. by intros ->. Qed.

Lemma lstrip_is_suffix s : ∃ w, s = w +:+ PyStr.lstrip s.
Proof.
  induction s as [|a s [w IH]]; [by exists ""|]. simpl.
  destruct (PyStr.isspace a).
  - exists (String a w). by rewrite IH at 1.
  - by exists "".
Qed.

Lemma rstrip_is_prefix s : ∃ w, s = PyStr.rstrip s +:+ w.
Proof.
  unfold PyStr.rstrip.
  destruct (lstrip_is_suffix (String.rev s)) as [w Hw].
  exists (String.rev w).
  rewrite <-string_rev_append, <-Hw. by rewrite string_rev_involutive.
Qed.

Lemma rstrip_keeps_clean_head s : clean_head s → clean_head (PyStr.rstrip s).
Proof.
  intros Hs. destruct (rstrip_is_prefix s) as [w Hw].
  destruct (PyStr.rstrip s) as [|a r]; [done|].
  rewrite Hw in Hs. done.
Qed.

Lemma strip_clean_head s : clean_head (PyStr.strip s).
Proof. apply rstrip_keeps_clean_head, lstrip_clean. Qed.

Lemma strip_clean_last s : clean_head (String.rev (PyStr.strip s)).
Proof.
  unfold PyStr.strip, PyStr.rstrip. rewrite string_rev_involutive.
  apply lstrip_clean.
Qed.

(** Trimming twice is trimming once. *)
Lemma strip_idempotent (s : string) : PyStr.strip (PyStr.strip s) = PyStr.strip s.
Proof.
  unfold PyStr.strip at 1.
  rewrite (lstrip_of_clean (PyStr.strip s)) by apply strip_clean_head.
  unfold PyStr.rstrip.
  rewrite (lstrip_of_clean (String.rev (PyStr.strip s))) by apply strip_clean_last.
  apply string_rev_involutive.
Qed.

(** ** Store, further *)

Lemma handle_store_keeps_latest ev st :
  files_agree st → files_agree (snd (handle_store ev st)).
Proof.
  intros Hinv uid. unfold handle_store.
  destruct (attr _ "SOPInstanceUID") as [uid0|] eqn:Huid; simpl; [|apply Hinv].
  destruct (se_writable ev); simpl.
  - unfold latest_with_uid. rewrite filter_app.
    destruct (decide (uid0 = uid)) as [->|Hne].
    + left. rewrite lookup_insert_eq, filter_cons_True by done.
      by rewrite filter_nil, last_snoc.
    + rewrite lookup_insert_ne by (intros H; by apply append_suffix_inj in H).
      rewrite filter_cons_False by (rewrite Huid; congruence).
      rewrite filter_nil, app_nil_r. apply Hinv.
  - destruct (se_opened ev); simpl; [|apply Hinv].
    destruct (decide (uid0 = uid)) as [->|Hne].
    + right. by rewrite lookup_insert_eq.
    + rewrite lookup_insert_ne by (intros H; by apply append_suffix_inj in H).
      apply Hinv.
Qed.

(** X1: on a server built by store events from the empty one, the file
    [<uid>.dcm] holds the dataset stored last under that SOPInstanceUID,
    written out in full, and there is no such file when none was stored,
    unless a write that failed after opening the file has left an
    unfinished file there. Storing a UID again replaces the file while
    [stored_datasets] keeps both entries; a failed write replaces it too,
    while [stored_datasets] keeps the entry whose file is gone. *)
Theorem X1_file_holds_latest_store (events : list store_event) (uid : string) :
  files (store_all events server_init) !! (uid +:+ ".dcm")
  = Whole <$> latest_with_uid uid (stored_datasets (store_all events server_init))
  ∨ files (store_all events server_init) !! (uid +:+ ".dcm") = Some Unfinished.
Proof.
  revert uid. fold (files_agree (store_all events server_init)).
  assert (G : ∀ st, files_agree st → files_agree (store_all events st)).
  { induction events as [|ev rest IH]; intros st Hinv; simpl; [done|].
    apply IH. by apply handle_store_keeps_latest. }
  apply G. intros uid. by left.
Qed.

(** The same instance stored, then stored again with a write that fails
    mid-way: the list still has the entry, the file is no longer whole. *)
Example failed_rewrite_loses_the_file :
  let ok := mkStoreEvent (instance_of "123" "1.2.3") ∅ true true in
  let ko := mkStoreEvent (instance_of "123" "1.2.3") ∅ false true in
  let st := store_all [ok; ko] server_init in
  latest_with_uid "1.2.3" (stored_datasets st)
  = Some (mkDataset (elements (instance_of "123" "1.2.3")) (Some ∅))
  ∧ files st !! "1.2.3.dcm" = Some Unfinished.
Proof. split; reflexivity. Qed.

(** X2: what a store event changes. [stored_datasets] changes exactly when
    the event returns 0x0000. Of the files only [<uid>.dcm], for the
    SOPInstanceUID of the event, can change: a store that raises for a
    missing SOPInstanceUID changes nothing, and one that raises for a failed
    write leaves every path as it was or, its own, with an unfinished
    file. *)
Theorem X2_what_a_store_changes (ev : store_event) (st : server) :
  (stored_datasets (snd (handle_store ev st)) ≠ stored_datasets st
   ↔ fst (handle_store ev st) = Return 0x0000%Z)
  ∧ (∀ path, files (snd (handle_store ev st)) !! path ≠ files st !! path →
       ∃ uid, attr (se_dataset ev) "SOPInstanceUID" = Some uid
              ∧ path = uid +:+ ".dcm")
  ∧ (attr (se_dataset ev) "SOPInstanceUID" = None → snd (handle_store ev st) = st)
  ∧ (∀ e path, fst (handle_store ev st) = Raise e →
       files (snd (handle_store ev st)) !! path = files st !! path
       ∨ files (snd (handle_store ev st)) !! path = Some Unfinished).
Proof.
  unfold handle_store.
  change (attr (mkDataset (elements (se_dataset ev)) (Some (se_file_meta ev)))
            "SOPInstanceUID")
    with (attr (se_dataset ev) "SOPInstanceUID").
  destruct (attr (se_dataset ev) "SOPInstanceUID") as [uid|]; simpl.
  2: { split_and!; [done|done|done|]. intros e path _. by left. }
  assert (Hframe : ∀ (f : file) path,
            <[uid +:+ ".dcm" := f]> (files st) !! path ≠ files st !! path →
            ∃ uid0, Some uid = Some uid0 ∧ path = uid0 +:+ ".dcm").
  { intros f path Hne. exists uid. split; [done|].
    destruct (decide (uid +:+ ".dcm" = path)) as [<-|Hp]; [done|].
    by rewrite lookup_insert_ne in Hne. }
  destruct (se_writable ev); simpl.
  - split_and!; [|by apply Hframe|done|done].
    split; [done|]. intros _ H.
    apply (f_equal length) in H. rewrite length_app in H. simpl in H. lia.
  - destruct (se_opened ev); simpl.
    + split_and!; [done|by apply Hframe|done|].
      intros e path _.
      destruct (decide (uid +:+ ".dcm" = path)) as [<-|Hp].
      * right. by rewrite lookup_insert_eq.
      * left. by rewrite lookup_insert_ne.
    + split_and!; [done|done|done|]. intros e path _. by left.
Qed.

(** ** Find, further *)

(** What [find_matches] appends, item by item. *)
Lemma find_matches_elem pid (insts : list Dataset) : ∀ (seen : gset string) m,
  m ∈ find_matches pid seen insts →
  ∃ inst p,
    inst ∈ insts
    ∧ attr inst "PatientID" = Some p
    ∧ (p ∉ seen)
    ∧ PyStr.strip p = PyStr.strip pid
    ∧ attr m "PatientID" = Some p
    ∧ attr m "QueryRetrieveLevel" = Some "PATIENT"
    ∧ attr m "PatientName" = attr inst "PatientName"
    ∧ (∀ k, is_Some (attr m k) →
            k = "QueryRetrieveLevel" ∨ k = "PatientID" ∨ k = "PatientName")
    ∧ file_meta m = None.
Proof.
  induction insts as [|inst rest IH]; intros seen m Hm; simpl in Hm.
  { by apply elem_of_nil in Hm. }
  assert (Hrest : ∀ seen', m ∈ find_matches pid seen' rest → seen ⊆ seen' →
    ∃ inst0 p, inst0 ∈ inst :: rest ∧ attr inst0 "PatientID" = Some p ∧ (p ∉ seen)
      ∧ PyStr.strip p = PyStr.strip pid ∧ attr m "PatientID" = Some p
      ∧ attr m "QueryRetrieveLevel" = Some "PATIENT"
      ∧ attr m "PatientName" = attr inst0 "PatientName"
      ∧ (∀ k, is_Some (attr m k) →
              k = "QueryRetrieveLevel" ∨ k = "PatientID" ∨ k = "PatientName")
      ∧ file_meta m = None).
  { intros seen' H Hsub.
    destruct (IH seen' m H) as (i & p & Hi & Hp & Hs & Hrest).
    exists i, p. split; [by right|]. split; [done|].
    split; [|done]. intros Hin. apply Hs. by apply Hsub. }
  destruct (attr inst "PatientID") as [p|] eqn:Hp; [|by apply (Hrest seen)].
  destruct (bool_decide (PyStr.strip p = PyStr.strip pid)) eqn:Hmatch;
    simpl in Hm; [|by apply (Hrest seen)].
  destruct (bool_decide (p ∉ seen)) eqn:Hseen; simpl in Hm; [|by apply (Hrest seen)].
  apply bool_decide_eq_true in Hmatch. apply bool_decide_eq_true in Hseen.
  apply elem_of_cons in Hm as [->|Hm].
  2: { apply (Hrest _ Hm). intros x Hx. apply elem_of_union. by right. }
  exists inst, p. split; [by left|]. do 3 (split; [done|]).
  unfold attr, set_attr, Dataset_new in *.
  destruct (elements inst !! "PatientName") as [n|] eqn:Hn; simpl.
  - split_and!; try by simplify_map_eq.
    intros k [v Hk].
    destruct (decide (k = "PatientName")) as [->|?]; [by auto|].
    destruct (decide (k = "PatientID")) as [->|?]; [by auto|].
    destruct (decide (k = "QueryRetrieveLevel")) as [->|?]; [by auto|].
    by simplify_map_eq.
  - split_and!; try by simplify_map_eq.
    intros k [v Hk].
    destruct (decide (k = "PatientID")) as [->|?]; [by auto|].
    destruct (decide (k = "QueryRetrieveLevel")) as [->|?]; [by auto|].
    by simplify_map_eq.
Qed.

(** The results of a find are the first few of the matches collected. *)
Lemma match_results_prefix cancelled (matches : list Dataset) : ∀ k,
  ∃ n, match_results (yield_matches cancelled k matches) = take n matches.
Proof.
  induction matches as [|m rest IH]; intros k; simpl; [by exists 0|].
  destruct (cancelled k); [by exists 0|].
  destruct (IH (S k)) as [n Hn]. exists (S n).
  change (match_results ((Pending, Some m) :: yield_matches cancelled (S k) rest))
    with (m :: match_results (yield_matches cancelled (S k) rest)).
  by rewrite Hn.
Qed.

Lemma match_results_elem event stored m :
  m ∈ match_results (fst (handle_find event stored)) →
  ∃ pid,
    attr (identifier event) "QueryRetrieveLevel" = Some "PATIENT"
    ∧ attr (identifier event) "PatientID" = Some pid
    ∧ pid ≠ ""
    ∧ m ∈ find_matches pid ∅ stored.
Proof.
  unfold handle_find.
  destruct (attr (identifier event) "QueryRetrieveLevel") as [level|]; simpl;
    [|by intros ?%elem_of_nil].
  case_bool_decide as Hl; [subst level|by intros ?%elem_of_nil].
  destruct (attr (identifier event) "PatientID") as [pid|]; [|by intros ?%elem_of_nil].
  destruct pid as [|a pid]; simpl; [by intros ?%elem_of_nil|].
  intros Hm. exists (String a pid). split_and!; [done..|].
  destruct (match_results_prefix (is_cancelled event)
              (find_matches (String a pid) ∅ stored) 0) as [n Hn].
  rewrite Hn in Hm. by apply (subseteq_take n) in Hm.
Qed.

(** X3: every result that a find yields is made of one stored instance that
    the query matches: its PatientID is that instance's, as stored, and equals
    the query's once both are trimmed; its level is PATIENT; its PatientName
    is that instance's if it has one; and it carries nothing else: no other
    attribute of the instance (no UID) and no file meta information. *)
Theorem X3_find_result_shape (event : query_event) (stored : list Dataset)
    (m : Dataset) :
  m ∈ match_results (fst (handle_find event stored)) →
  ∃ pid inst p,
    attr (identifier event) "PatientID" = Some pid
    ∧ inst ∈ stored
    ∧ attr inst "PatientID" = Some p
    ∧ PyStr.strip p = PyStr.strip pid
    ∧ attr m "PatientID" = Some p
    ∧ attr m "QueryRetrieveLevel" = Some "PATIENT"
    ∧ attr m "PatientName" = attr inst "PatientName"
    ∧ (∀ k, is_Some (attr m k) →
            k = "QueryRetrieveLevel" ∨ k = "PatientID" ∨ k = "PatientName")
    ∧ file_meta m = None.
Proof.
  intros Hm. destruct (match_results_elem _ _ _ Hm) as (pid & _ & Hpid & _ & Hin).
  destruct (find_matches_elem pid stored ∅ m Hin)
    as (inst & p & Hi & Hp & _ & Hrest).
  by exists pid, inst, p.
Qed.

Lemma find_matches_cons_match pid seen inst rest p :
  attr inst "PatientID" = Some p →
  PyStr.strip p = PyStr.strip pid →
  p ∉ seen →
  ∃ res, find_matches pid seen (inst :: rest)
         = res :: find_matches pid ({[p]} ∪ seen) rest
         ∧ attr res "PatientID" = Some p
         ∧ attr res "PatientName" = attr inst "PatientName".
Proof.
  intros Hp Hs Hn. simpl. rewrite Hp.
  rewrite !bool_decide_eq_true_2 by done. simpl.
  eexists; split; [done|].
  unfold attr, set_attr, Dataset_new.
  destruct (elements inst !! "PatientName"); simpl; by simplify_map_eq.
Qed.

Lemma find_matches_cons_skip pid seen inst rest :
  (∀ p, attr inst "PatientID" = Some p →
        PyStr.strip p = PyStr.strip pid → p ∈ seen) →
  find_matches pid seen (inst :: rest) = find_matches pid seen rest.
Proof.
  intros H. simpl. destruct (attr inst "PatientID") as [p|]; [|done].
  case_bool_decide as Hs; [|done]. simpl.
  by rewrite bool_decide_eq_false_2 by (intros Hn; apply Hn; by apply H).
Qed.

(** One way or the other: the head of the list adds a result or it does not. *)
Lemma find_matches_cons_cases pid seen inst rest :
  (∃ p res, attr inst "PatientID" = Some p
            ∧ PyStr.strip p = PyStr.strip pid ∧ (p ∉ seen)
            ∧ find_matches pid seen (inst :: rest)
              = res :: find_matches pid ({[p]} ∪ seen) rest
            ∧ attr res "PatientID" = Some p
            ∧ attr res "PatientName" = attr inst "PatientName")
  ∨ ((∀ p, attr inst "PatientID" = Some p →
           PyStr.strip p = PyStr.strip pid → p ∈ seen)
     ∧ find_matches pid seen (inst :: rest) = find_matches pid seen rest).
Proof.
  destruct (attr inst "PatientID") as [p|] eqn:Hp.
  - destruct (decide (PyStr.strip p = PyStr.strip pid)) as [Hs|Hs].
    + destruct (decide (p ∈ seen)) as [Hin|Hn].
      * right. assert (∀ q, Some p = Some q → PyStr.strip q = PyStr.strip pid → q ∈ seen)
          by (by intros q [= <-]).
        split; [done|]. apply find_matches_cons_skip. by rewrite Hp.
      * left. destruct (find_matches_cons_match pid seen inst rest p)
          as (res & ? & ? & ?); [done..|]. by exists p, res.
    + right. assert (∀ q, Some p = Some q → PyStr.strip q = PyStr.strip pid → q ∈ seen)
        by (intros q [= <-]; done).
      split; [done|]. apply find_matches_cons_skip. by rewrite Hp.
  - right. split; [done|]. apply find_matches_cons_skip. by rewrite Hp.
Qed.

Lemma find_matches_ids_NoDup pid (insts : list Dataset) : ∀ seen : gset string,
  NoDup ((λ m, attr m "PatientID") <$> find_matches pid seen insts).
Proof.
  induction insts as [|inst rest IH]; intros seen; [constructor|].
  destruct (find_matches_cons_cases pid seen inst rest)
    as [(p & res & _ & _ & _ & -> & Hres & _)|[_ ->]]; [|apply IH].
  rewrite fmap_cons, Hres. apply NoDup_cons. split; [|apply IH].
  intros (m & Hm & Hin)%list_elem_of_fmap.
  destruct (find_matches_elem _ _ _ _ Hin) as (_ & q & _ & _ & Hq & _ & Hmq & _).
  rewrite Hmq in Hm. injection Hm as ->.
  apply Hq, elem_of_union. left. by apply elem_of_singleton.
Qed.

(** X4: no two results of a find carry the same PatientID string. *)
Theorem X4_find_results_have_distinct_ids (event : query_event) (stored : list Dataset) :
  NoDup ((λ m, attr m "PatientID") <$> match_results (fst (handle_find event stored))).
Proof.
  assert (G : ∀ matches k,
    NoDup ((λ m, attr m "PatientID") <$> matches) →
    NoDup ((λ m, attr m "PatientID")
           <$> match_results (yield_matches (is_cancelled event) k matches))).
  { intros matches k H.
    destruct (match_results_prefix (is_cancelled event) matches k) as [n ->].
    rewrite fmap_take. eapply sublist_NoDup; [exact H|apply sublist_take]. }
  unfold handle_find.
  destruct (attr (identifier event) "QueryRetrieveLevel"); simpl; [|constructor].
  apply G. case_bool_decide; [|constructor].
  destruct (attr (identifier event) "PatientID") as [pid|]; [|constructor].
  destruct (PyStr.truthy pid); [|constructor].
  apply find_matches_ids_NoDup.
Qed.

Lemma first_with_id_cons p inst rest :
  first_with_id p (inst :: rest)
  = if decide (attr inst "PatientID" = Some p) then Some inst
    else first_with_id p rest.
Proof.
  unfold first_with_id. simpl. case_decide; [done|].
  by destruct (list_find _ rest) as [[i x]|].
Qed.

Lemma find_matches_name_of_first pid (insts : list Dataset) :
  ∀ (seen : gset string) m p,
  m ∈ find_matches pid seen insts →
  attr m "PatientID" = Some p →
  ∃ inst, first_with_id p insts = Some inst
          ∧ attr m "PatientName" = attr inst "PatientName".
Proof.
  induction insts as [|inst rest IH]; intros seen m p Hm Hp.
  { by apply elem_of_nil in Hm. }
  rewrite first_with_id_cons.
  destruct (find_matches_cons_cases pid seen inst rest)
    as [(q & res & Hq & Hs & Hn & Heq & Hres & Hname)|[Hskip Heq]];
    rewrite Heq in Hm.
  - apply elem_of_cons in Hm as [->|Hm].
    + rewrite Hres in Hp. injection Hp as ->.
      rewrite decide_True by done. by exists inst.
    + destruct (find_matches_elem _ _ _ _ Hm) as (_ & p' & _ & _ & Hp' & _ & Hmp & _).
      rewrite Hmp in Hp. injection Hp as ->.
      rewrite decide_False.
      * by apply (IH _ _ _ Hm).
      * rewrite Hq. intros [= ->]. apply Hp', elem_of_union. left.
        by apply elem_of_singleton.
  - destruct (find_matches_elem _ _ _ _ Hm) as (_ & p' & _ & _ & Hp' & Hs & Hmp & _).
    rewrite Hmp in Hp. injection Hp as ->.
    rewrite decide_False; [by apply (IH _ _ _ Hm)|].
    intros Hq. apply Hp'. by apply Hskip.
Qed.

(** X5: the PatientName of a result is that of the first stored instance
    which carries the result's PatientID as spelled; what later instances of
    that patient say about the name (another name, or a name where the first
    has none) is not used. *)
Theorem X5_find_name_is_first_instances (event : query_event) (stored : list Dataset)
    (m : Dataset) (p : string) :
  m ∈ match_results (fst (handle_find event stored)) →
  attr m "PatientID" = Some p →
  ∃ inst, first_with_id p stored = Some inst
          ∧ attr m "PatientName" = attr inst "PatientName".
Proof.
  intros Hm Hp. destruct (match_results_elem _ _ _ Hm) as (pid & _ & _ & _ & Hin).
  by eapply find_matches_name_of_first.
Qed.

Lemma yield_matches_cancelled cancelled (K : nat) :
  ∀ (matches : list Dataset) (k : nat),
  K < length matches →
  (∀ j, j < K → cancelled (k + j) = false) →
  cancelled (k + K) = true →
  yield_matches cancelled k matches
  = ((λ m, (0xFF00%Z, Some m)) <$> take K matches) ++ [(0xFE00%Z, None)].
Proof.
  induction K as [|K IH]; intros matches k Hlen Hbefore Hat;
    (destruct matches as [|m rest]; simpl in Hlen; [lia|]); simpl.
  - rewrite Nat.add_0_r in Hat. by rewrite Hat.
  - pose proof (Hbefore 0 ltac:(lia)) as H0. rewrite Nat.add_0_r in H0. rewrite H0.
    rewrite (IH rest (S k)); [done|lia| |].
    + intros j Hj. replace (S k + j) with (k + S j) by lia. apply Hbefore. lia.
    + by replace (S k + K) with (k + S K) by lia.
Qed.

Lemma yield_matches_uncancelled cancelled :
  ∀ (matches : list Dataset) (k : nat),
  (∀ j, j < length matches → cancelled (k + j) = false) →
  yield_matches cancelled k matches = (λ m, (0xFF00%Z, Some m)) <$> matches.
Proof.
  induction matches as [|m rest IH]; intros k Hok; simpl; [done|].
  pose proof (Hok 0 ltac:(simpl; lia)) as H0. rewrite Nat.add_0_r in H0. rewrite H0.
  rewrite (IH (S k)); [done|].
  intros j Hj. replace (S k + j) with (k + S j) by lia. apply Hok. simpl. lia.
Qed.

(** X6: cancellation of a find. For a PATIENT-level query with a non-empty
    PatientID, when [event.is_cancelled] is false at the checks before the
    first [K] matches and true at the next one, the handler yields these [K]
    matches with status 0xFF00, then [(0xFE00, None)], and returns: the match
    at which the cancellation is seen and those after it are not yielded. *)
Theorem X6_find_cancelled_after_K_results (event : query_event)
    (stored : list Dataset) (pid : string) (K : nat) :
  attr (identifier event) "QueryRetrieveLevel" = Some "PATIENT" →
  attr (identifier event) "PatientID" = Some pid →
  pid ≠ "" →
  K < length (find_matches pid ∅ stored) →
  (∀ j, j < K → is_cancelled event j = false) →
  is_cancelled event K = true →
  handle_find event stored
  = (((λ m, (0xFF00%Z, Some m)) <$> take K (find_matches pid ∅ stored))
     ++ [(0xFE00%Z, None)], Returned).
Proof.
  intros Hl Hp Hne HK Hbefore Hat.
  unfold handle_find. rewrite Hl, Hp. simpl.
  destruct pid as [|a pid]; [done|]. simpl PyStr.truthy. cbv iota.
  by rewrite (yield_matches_cancelled _ K).
Qed.

Lemma find_matches_nonempty pid (insts : list Dataset) : ∀ seen : gset string,
  (∃ inst p, inst ∈ insts ∧ attr inst "PatientID" = Some p
             ∧ PyStr.strip p = PyStr.strip pid ∧ (p ∉ seen)) →
  find_matches pid seen insts ≠ [].
Proof.
  induction insts as [|inst rest IH]; intros seen (i & p & Hi & Hp & Hs & Hn).
  { by apply elem_of_nil in Hi. }
  destruct (find_matches_cons_cases pid seen inst rest)
    as [(q & res & _ & _ & _ & -> & _)|[Hskip ->]]; [done|].
  apply IH. exists i, p. split; [|done].
  apply elem_of_cons in Hi as [->|Hi]; [|done].
  destruct Hn. by apply Hskip.
Qed.

Lemma same_patient_spec pid inst :
  same_patient pid inst = true
  ↔ ∃ p, attr inst "PatientID" = Some p ∧ PyStr.strip p = PyStr.strip pid.
Proof.
  unfold same_patient. destruct (attr inst "PatientID") as [p|]; split.
  - intros H%bool_decide_eq_true. by exists p.
  - intros (q & [= <-] & H). by apply bool_decide_eq_true.
  - done.
  - by intros (q & ? & _).
Qed.

(** X7: find and move agree on whether a patient is there. For one
    PATIENT-level identifier with a non-empty PatientID, a find that is not
    cancelled yields a result exactly when a move selects a candidate. *)
Theorem X7_find_has_result_iff_move_has_candidate (fe : query_event)
    (me : move_event) (stored : list Dataset) (pid : string) :
  identifier fe = mv_identifier me →
  attr (identifier fe) "QueryRetrieveLevel" = Some "PATIENT" →
  attr (identifier fe) "PatientID" = Some pid →
  pid ≠ "" →
  is_cancelled fe 0 = false →
  match_results (fst (handle_find fe stored)) ≠ []
  ↔ 0 < length (select_candidates (mv_identifier me) "PATIENT" stored).
Proof.
  intros Hid Hl Hp Hne Hc.
  unfold select_candidates. rewrite <-Hid, Hp. simpl.
  unfold handle_find. rewrite Hl, Hp. simpl.
  destruct pid as [|a pid]; [done|]. simpl PyStr.truthy. cbv iota.
  set (pid' := String a pid). split.
  - intros Hres.
    destruct (find_matches pid' ∅ stored) as [|m rest] eqn:Hm; [done|].
    destruct (find_matches_elem pid' stored ∅ m) as (inst & p & Hi & Hpi & _ & Hs & _).
    { rewrite Hm. by left. }
    assert (Hin : inst ∈ filter (λ inst, same_patient pid' inst) stored).
    { apply list_elem_of_filter. split; [|done].
      apply Is_true_true, same_patient_spec. by exists p. }
    destruct (filter _ stored); [by apply elem_of_nil in Hin|simpl; lia].
  - intros Hlen.
    destruct (filter (λ inst, same_patient pid' inst) stored) as [|inst l] eqn:Hf;
      [simpl in Hlen; lia|].
    assert (Hin : inst ∈ filter (λ inst, same_patient pid' inst) stored)
      by (rewrite Hf; by left).
    apply list_elem_of_filter in Hin as [Hsame Hin].
    apply Is_true_true, same_patient_spec in Hsame as (p & Hpi & Hs).
    pose proof (find_matches_nonempty pid' stored ∅) as Hne'.
    destruct (find_matches pid' ∅ stored) as [|m rest].
    + exfalso. apply Hne'; [|done]. exists inst, p. split_and!; [done..|].
      apply not_elem_of_empty.
    + simpl. rewrite Hc. done.
Qed.

Lemma find_matches_strip pid1 pid2 (insts : list Dataset) : ∀ seen : gset string,
  PyStr.strip pid1 = PyStr.strip pid2 →
  find_matches pid1 seen insts = find_matches pid2 seen insts.
Proof.
  intros seen H. revert seen.
  induction insts as [|inst rest IH]; intros seen; simpl; [done|].
  rewrite H. destruct (attr inst "PatientID"); [|done].
  by rewrite !IH.
Qed.

(** X8: blanks around the PatientID of a query do not matter. Two
    PATIENT-level queries whose PatientIDs are non-empty and equal once
    trimmed get the same answer on every repository (under the same
    cancellation). *)
Theorem X8_find_ignores_blanks_around_query_id (e1 e2 : query_event)
    (stored : list Dataset) (pid1 pid2 : string) :
  attr (identifier e1) "QueryRetrieveLevel" = Some "PATIENT" →
  attr (identifier e2) "QueryRetrieveLevel" = Some "PATIENT" →
  attr (identifier e1) "PatientID" = Some pid1 →
  attr (identifier e2) "PatientID" = Some pid2 →
  pid1 ≠ "" → pid2 ≠ "" →
  PyStr.strip pid1 = PyStr.strip pid2 →
  is_cancelled e1 = is_cancelled e2 →
  handle_find e1 stored = handle_find e2 stored.
Proof.
  intros Hl1 Hl2 Hp1 Hp2 Hn1 Hn2 Hs Hc.
  unfold handle_find. rewrite Hl1, Hl2, Hp1, Hp2, Hc. simpl.
  destruct pid1; [done|]. destruct pid2; [done|]. simpl PyStr.truthy. cbv iota.
  by rewrite (find_matches_strip _ _ stored ∅ Hs).
Qed.

(** X9: what was stored can be found. After a store event that returns
    0x0000 for a dataset with PatientID [p], on any server, a PATIENT-level
    query whose non-empty PatientID equals [p] once both are trimmed, and
    which is not cancelled, yields a result whose trimmed PatientID is that of
    the query. *)
Theorem X9_stored_instance_is_found (ev : store_event) (st : server)
    (event : query_event) (p pid : string) :
  fst (handle_store ev st) = Return 0x0000%Z →
  attr (se_dataset ev) "PatientID" = Some p →
  attr (identifier event) "QueryRetrieveLevel" = Some "PATIENT" →
  attr (identifier event) "PatientID" = Some pid →
  pid ≠ "" →
  PyStr.strip p = PyStr.strip pid →
  is_cancelled event 0 = false →
  ∃ m q,
    m ∈ match_results
          (fst (handle_find event (stored_datasets (snd (handle_store ev st)))))
    ∧ attr m "PatientID" = Some q
    ∧ PyStr.strip q = PyStr.strip pid.
Proof.
  intros Hok Hp Hl Hpid Hne Hs Hc.
  set (stored' := stored_datasets (snd (handle_store ev st))).
  assert (Hin : mkDataset (elements (se_dataset ev)) (Some (se_file_meta ev)) ∈ stored').
  { unfold stored'. rewrite handle_store_appends. apply elem_of_app. right.
    unfold stored_by. rewrite (handle_store_result_state_free ev server_init st), Hok.
    by left. }
  pose proof (find_matches_nonempty pid stored' ∅) as Hne'.
  destruct (find_matches pid ∅ stored') as [|m rest] eqn:Hm.
  { exfalso. apply Hne'; [|done]. eexists _, p. split_and!; [exact Hin|done..|].
    apply not_elem_of_empty. }
  destruct (find_matches_elem pid stored' ∅ m) as (_ & q & _ & _ & _ & Hq & Hmq & _).
  { rewrite Hm. by left. }
  exists m, q. split_and!; [|done..].
  unfold handle_find. rewrite Hl, Hpid. simpl.
  destruct pid as [|a pid]; [done|]. simpl PyStr.truthy. cbv iota.
  fold stored'. rewrite Hm. simpl. rewrite Hc. by left.
Qed.

(** ** Move, further *)

Lemma send_loop_safe event addr port dest : ∀ (to_send : list Dataset) (k : nat),
  sublist (sent (fst (send_loop event addr port dest k to_send))) to_send
  ∧ (sessions_opened (fst (send_loop event addr port dest k to_send)) ≤ length to_send)%nat
  ∧ sessions_go_to addr port dest (fst (send_loop event addr port dest k to_send)).
Proof.
  induction to_send as [|inst rest IH]; intros k; simpl.
  { split_and!; [constructor|done|]. by intros a p d c ?%elem_of_nil. }
  destruct (mv_is_cancelled event k).
  { simpl. split_and!; [apply sublist_nil_l|unfold sessions_opened; simpl; lia|].
    intros a p d c [?|?%elem_of_nil]%elem_of_cons; done. }
  destruct (IH (S k)) as (Hsub & Hn & Hgo).
  destruct (send_loop event addr port dest (S k) rest) as [acts fin] eqn:Hloop.
  cbn [fst] in Hsub, Hn, Hgo.
  destruct (mv_network event k) as [|status].
  - cbn [fst]. rewrite !sent_cons, !sessions_opened_cons. simpl.
    split_and!; [by apply sublist_cons|lia|].
    intros a p d c [[= -> -> -> _]|[?|Hin]%elem_of_cons]%elem_of_cons; [done..|].
    by eapply Hgo.
  - destruct (attr inst "SOPInstanceUID").
    + cbn [fst]. rewrite !sent_cons, !sessions_opened_cons. simpl.
      split_and!; [by apply sublist_skip|lia|].
      intros a p d c Hin. repeat (apply elem_of_cons in Hin as [Hin|Hin]);
        [by injection Hin as -> -> -> _|done..|by eapply Hgo].
    + simpl. split_and!.
      * unfold sent. simpl. apply sublist_skip, sublist_nil_l.
      * unfold sessions_opened. simpl. lia.
      * intros a p d c Hin. repeat (apply elem_of_cons in Hin as [Hin|Hin]);
          [by injection Hin as -> -> -> _|done..|by apply elem_of_nil in Hin].
Qed.

(** X10: whatever the cancellation flag and the network do, a move hands to
    [send_c_store] only stored instances whose trimmed PatientID is the
    request's, each at most once and in the order in which they were stored;
    it opens at most one session per stored instance, and every session is
    asked of the address and port that the registry gives for the requested
    destination. *)
Theorem X10_move_sends_only_the_requested_patient (SPC : list string)
    (event : move_event) (stored : list Dataset) :
  sublist (sent (fst (handle_move SPC event stored))) stored
  ∧ (∀ inst, inst ∈ sent (fst (handle_move SPC event stored)) →
       ∃ pid, attr (mv_identifier event) "PatientID" = Some pid
              ∧ same_patient pid inst = true)
  ∧ (sessions_opened (fst (handle_move SPC event stored)) ≤ length stored)%nat
  ∧ (∀ a p d c, Associate a p d c ∈ fst (handle_move SPC event stored) →
       KNOWN_AE_DESTINATIONS !! move_destination event = Some (a, p)
       ∧ d = move_destination event).
Proof.
  unfold handle_move.
  destruct (KNOWN_AE_DESTINATIONS !! move_destination event) as [[addr port]|] eqn:Hd.
  2: { simpl. split_and!; [apply sublist_nil_l|by intros ? ?%elem_of_nil|
         unfold sessions_opened; simpl; lia|].
       intros a p d c [?|?%elem_of_nil]%elem_of_cons; done. }
  destruct (attr (mv_identifier event) "QueryRetrieveLevel") as [level|].
  2: { simpl. split_and!; [apply sublist_nil_l|by intros ? ?%elem_of_nil|
         unfold sessions_opened; simpl; lia|].
       intros a p d c [?|?%elem_of_nil]%elem_of_cons; done. }
  set (to_send := select_candidates (mv_identifier event) level stored).
  destruct (send_loop_safe event addr port (move_destination event) to_send 0)
    as (Hsub & Hn & Hgo).
  destruct (send_loop event addr port (move_destination event) 0 to_send)
    as [acts fin] eqn:Hloop.
  cbn [fst] in Hsub, Hn, Hgo. cbn [fst].
  rewrite !sent_cons, !sessions_opened_cons. simpl.
  assert (Hsel : sublist to_send stored
                 ∧ ∀ inst, inst ∈ to_send →
                     ∃ pid, attr (mv_identifier event) "PatientID" = Some pid
                            ∧ same_patient pid inst = true).
  { unfold to_send, select_candidates.
    case_bool_decide; [|split; [apply sublist_nil_l|by intros ? ?%elem_of_nil]].
    destruct (attr (mv_identifier event) "PatientID") as [pid|];
      [|split; [apply sublist_nil_l|by intros ? ?%elem_of_nil]].
    split; [apply sublist_filter|].
    intros inst [Hs _]%list_elem_of_filter. exists pid. split; [done|].
    by apply Is_true_true. }
  destruct Hsel as [Hsel1 Hsel2]. split_and!.
  - by etrans.
  - intros inst Hin. apply Hsel2. by eapply sublist_subseteq.
  - apply sublist_length in Hsel1. lia.
  - intros a p d c [?|[?|Hin]%elem_of_cons]%elem_of_cons; [done..|].
    destruct (Hgo _ _ _ _ Hin) as (-> & -> & ->). done.
Qed.


(** X12: what a move to a known destination does with an identifier it
    cannot use. Without QueryRetrieveLevel it yields the destination and then
    raises AttributeError, before any count. With a level other than PATIENT,
    or without PatientID, it yields the destination and the count 0 and
    returns, whatever is stored. *)
Theorem X12_move_with_unusable_identifier (SPC : list string) (event : move_event)
    (stored : list Dataset) (addr : string) (port : Z) :
  KNOWN_AE_DESTINATIONS !! move_destination event = Some (addr, port) →
  (attr (mv_identifier event) "QueryRetrieveLevel" = None →
   handle_move SPC event stored
   = ([Yield (Destination addr port (move_destination event) (requested_contexts SPC))],
      Raised (AttributeError "QueryRetrieveLevel")))
  ∧ (∀ level,
       attr (mv_identifier event) "QueryRetrieveLevel" = Some level →
       level ≠ "PATIENT" ∨ attr (mv_identifier event) "PatientID" = None →
       handle_move SPC event stored
       = ([Yield (Destination addr port (move_destination event) (requested_contexts SPC));
           Yield (SubOperations 0)], Returned)).
Proof.
  intros Hd. unfold handle_move. rewrite Hd. split.
  - by intros ->.
  - intros level -> [Hne| Hp]; unfold select_candidates.
    + by rewrite bool_decide_eq_false_2.
    + rewrite Hp. by case_bool_decide.
Qed.

(** X13: what a store adds to later moves. After a store event that returns
    0x0000, the candidates of a PATIENT-level move for PatientID [pid] are
    those of before, followed by the new instance when its trimmed PatientID
    is the trimmed [pid]; the moves for other patients select what they
    selected before. *)
Theorem X13_stored_instance_is_last_candidate (ev : store_event) (st : server)
    (ident : Dataset) (pid : string) :
  fst (handle_store ev st) = Return 0x0000%Z →
  attr ident "PatientID" = Some pid →
  select_candidates ident "PATIENT" (stored_datasets (snd (handle_store ev st)))
  = select_candidates ident "PATIENT" (stored_datasets st)
    ++ (if same_patient pid (se_dataset ev)
        then [mkDataset (elements (se_dataset ev)) (Some (se_file_meta ev))]
        else []).
Proof.
  intros Hok Hp. rewrite handle_store_appends.
  unfold stored_by. rewrite (handle_store_result_state_free ev server_init st), Hok.
  unfold select_candidates. rewrite Hp. simpl. rewrite filter_app. f_equal.
  assert (Hsame : same_patient pid
                     (mkDataset (elements (se_dataset ev)) (Some (se_file_meta ev)))
                   = same_patient pid (se_dataset ev)) by done.
  destruct (same_patient pid (se_dataset ev)) eqn:E.
  - rewrite filter_cons_True; [done|]. cbv beta. rewrite Hsame. exact I.
  - rewrite filter_cons_False; [done|]. cbv beta. rewrite Hsame. exact id.
Qed.

(** ** The detector, further *)

(** The items of a listing are its names of the form [<stem>.dcm]. *)
Lemma items_spec names fname :
  fname ∈ items names ↔ fname ∈ names ∧ ∃ stem, fname = stem +:+ ".dcm".
Proof. unfold items. rewrite list_elem_of_filter, endswith_true. tauto. Qed.

Lemma dcm_files_end_with_dcm names :
  Forall (λ f, PyStr.endswith f ".dcm" = true) (dcm_files names).
Proof.
  apply Forall_forall. intros f [H _]%list_elem_of_filter. by apply Is_true_true.
Qed.

Lemma loop_returns_a_listing w timeout c : ∀ fuel k st s,
  (current_files st = []
   ∨ ∃ j names, listing w j = Some names ∧ current_files st = dcm_files names) →
  loop w timeout c fuel k st = Some s →
  files_returned s = []
  ∨ ∃ j names, listing w j = Some names ∧ files_returned s = dcm_files names.
Proof.
  induction fuel as [|fuel IH]; intros k st s Hst Hrun; simpl in Hrun; [done|].
  destruct (in_time w timeout k); [|by injection Hrun as <-].
  destruct (listing w k) as [names|] eqn:Hl; simpl in Hrun.
  - match type of Hrun with context [bool_decide ?P] => destruct (bool_decide P) end.
    + injection Hrun as <-. simpl. right. exists k, names. split; [done|].
      by case_bool_decide.
    + eapply IH; [|exact Hrun]. right. exists k, names. split; [done|].
      by case_bool_decide.
  - by eapply IH.
Qed.

Lemma wait_for_files_listing (w : world) (timeout : Q)
    (consecutive : Z) (fuel : nat) (files : list string) :
  wait_for_files w timeout consecutive fuel = Some files →
  (files = []
   ∨ ∃ k names, listing w k = Some names ∧ files = dcm_files names)
  ∧ Forall (λ f, PyStr.endswith f ".dcm" = true) files.
Proof.
  unfold wait_for_files, run.
  destruct (loop w timeout consecutive fuel 0 initial) as [s|] eqn:Hrun; [|done].
  intros [= <-].
  assert (H : files_returned s = []
              ∨ ∃ k names, listing w k = Some names ∧ files_returned s = dcm_files names).
  { eapply loop_returns_a_listing; [|exact Hrun]. by left. }
  split; [done|].
  destruct H as [->|(k & names & _ & ->)]; [constructor|apply dcm_files_end_with_dcm].
Qed.

(** X14: whatever the clock and the folder do, what [wait_for_files] returns
    is the empty list or the [.dcm] names of one listing that a poll really
    read, as a whole; every name returned ends in [.dcm]. *)
Theorem X14_wait_returns_one_listing_filtered (w : world) (timeout : Q)
    (consecutive : Z) (fuel : nat) (files : list string) :
  wait_for_files w timeout consecutive fuel = Some files →
  (files = []
   ∨ ∃ k names, listing w k = Some names ∧ files = dcm_files names)
  ∧ Forall (λ f, PyStr.endswith f ".dcm" = true) files.
Proof. apply wait_for_files_listing. Qed.

Lemma loop_needs_polls w timeout c : ∀ fuel k st s,
  ((previous_count st = -1 ∧ stable_count st = 0)
   ∨ (0 ≤ previous_count st ∧ stable_count st + 1 ≤ Z.of_nat k))%Z →
  loop w timeout c fuel k st = Some s →
  (by_timeout s = false → c + 1 ≤ Z.of_nat (polls s))%Z
  ∧ sleeps s = (if by_timeout s then polls s else pred (polls s)).
Proof.
  induction fuel as [|fuel IH]; intros k st s Hst Hrun; simpl in Hrun; [done|].
  destruct (in_time w timeout k); [|by injection Hrun as <-].
  destruct (listing w k) as [names|] eqn:Hl; simpl in Hrun.
  - destruct (decide (Z.of_nat (length (dcm_files names)) = previous_count st))
      as [Heq|Hne].
    + rewrite (bool_decide_eq_true_2 _ Heq) in Hrun. simpl in Hrun.
      destruct Hst as [[Hp _]|[Hp Hs]]; [lia|].
      case_bool_decide as Hc.
      * injection Hrun as <-. simpl. split; [lia|done].
      * eapply IH; [|exact Hrun]. right. simpl. lia.
    + rewrite (bool_decide_eq_false_2 _ Hne) in Hrun. simpl in Hrun.
      case_bool_decide as Hc.
      * injection Hrun as <-. simpl. split; [lia|done].
      * eapply IH; [|exact Hrun]. right. simpl. lia.
  - eapply IH; [|exact Hrun]. destruct Hst as [?|[? ?]]; [by left|right; lia].
Qed.

(** X15: a call that ends on stability has made at least [consecutive + 1]
    polls, so it has slept at least [consecutive] times: one poll to see a
    count and [consecutive] more to see it again. A call sleeps after every
    poll but the one that breaks the loop. *)
Theorem X15_wait_polls_at_least_consecutive_plus_one (w : world) (timeout : Q)
    (consecutive : Z) (fuel : nat) (s : stop) :
  run w timeout consecutive fuel = Some s →
  (by_timeout s = false → consecutive + 1 ≤ Z.of_nat (polls s))%Z
  ∧ sleeps s = (if by_timeout s then polls s else pred (polls s)).
Proof.
  intros Hrun. eapply loop_needs_polls; [|exact Hrun]. by left.
Qed.

Lemma steady_folder_unchanged w (n : nat) : ∀ i,
  (∀ k, (k ≤ i)%nat →
        ∃ names, listing w k = Some names ∧ length (dcm_files names) = n) →
  unchanged_polls (seen w (S i)) = i
  ∧ ∃ names, listing w i = Some names
             ∧ last (seen w (S i)) = Some (dcm_files names).
Proof.
  induction i as [|i IH]; intros H.
  - destruct (H 0) as (names & Hl & Hn); [lia|].
    rewrite seen_S, Hl. simpl. split; [done|]. by exists names.
  - destruct IH as (Hu & prev & Hlp & Hlast); [intros k Hk; apply H; lia|].
    destruct (H (S i)) as (names & Hl & Hn); [lia|].
    destruct (H i) as (prev' & Hlp' & Hn'); [lia|].
    rewrite Hlp in Hlp'. injection Hlp' as <-.
    rewrite (seen_S w (S i)), Hl. split.
    + rewrite unchanged_polls_snoc, Hlast.
      rewrite bool_decide_eq_true_2 by congruence. by rewrite Hu.
    + exists names. split; [done|]. by rewrite last_snoc.
Qed.

(** X16: a folder that is there from the first poll and whose number of
    [.dcm] items does not change costs exactly [consecutive + 1] polls: the
    call returns at poll number [consecutive], counted from 0, with the
    listing read then. With the default [consecutive = 2] that is three polls
    and two sleeps. *)
Theorem X16_wait_on_a_steady_folder (w : world) (timeout : Q) (c n : nat) :
  (∀ k, (k ≤ c)%nat → (now w (S k) - now w 0 < timeout)%Q) →
  (∀ k, (k ≤ c)%nat →
        ∃ names, listing w k = Some names ∧ length (dcm_files names) = n) →
  ∃ names,
    listing w c = Some names
    ∧ ∀ fuel, c < fuel →
        run w timeout (Z.of_nat c) fuel
        = Some (mkStop (dcm_files names) (S c) c false).
Proof.
  intros Htime Hsteady.
  destruct (steady_folder_unchanged w n c Hsteady) as (Hu & names & Hl & Hlast).
  exists names. split; [done|]. intros fuel Hfuel.
  assert (Hin : in_time w timeout c = true) by (apply in_time_true, Htime; lia).
  assert (Hstop : stops_at w timeout (Z.of_nat c) c).
  { right. split; [by eexists|]. rewrite Hu. lia. }
  assert (Hrun : run w timeout (Z.of_nat c) fuel = Some (outcome_at w timeout c)).
  { apply (loop_reaches_stop w timeout (Z.of_nat c) c Hstop c fuel 0); [done..|].
    intros i Hi [Ht|[_ Hc]].
    - rewrite (proj2 (in_time_true w timeout i)) in Ht by (apply Htime; lia). done.
    - destruct (steady_folder_unchanged w n i) as (Hui & _).
      { intros k Hk. apply Hsteady. lia. }
      rewrite Hui in Hc. lia. }
  rewrite Hrun. unfold outcome_at. rewrite Hin. unfold latest. by rewrite Hlast.
Qed.

(** X17: with [consecutive] zero or negative nothing is compared: the call
    returns at the first poll that finds the folder, with what that poll
    lists. *)
Theorem X17_wait_without_stability_check (w : world) (timeout : Q)
    (consecutive : Z) (k : nat) (names : list string) :
  (consecutive ≤ 0)%Z →
  (∀ j, (j ≤ k)%nat → (now w (S j) - now w 0 < timeout)%Q) →
  (∀ j, j < k → listing w j = None) →
  listing w k = Some names →
  ∀ fuel, k < fuel →
    run w timeout consecutive fuel = Some (mkStop (dcm_files names) (S k) k false).
Proof.
  intros Hc Htime Hnone Hl fuel Hfuel.
  assert (Hin : in_time w timeout k = true) by (apply in_time_true, Htime; lia).
  assert (Hstop : stops_at w timeout consecutive k).
  { right. split; [by eexists|]. lia. }
  assert (Hrun : run w timeout consecutive fuel = Some (outcome_at w timeout k)).
  { apply (loop_reaches_stop w timeout consecutive k Hstop k fuel 0); [done..|].
    intros i Hi [Ht|[[x Hx] _]].
    - rewrite (proj2 (in_time_true w timeout i)) in Ht by (apply Htime; lia). done.
    - rewrite Hnone in Hx by lia. done. }
  rewrite Hrun. unfold outcome_at. rewrite Hin, seen_S, Hl. unfold latest.
  by rewrite last_snoc.
Qed.

(** ** The viewer backend *)

#[local] Set Warnings "-clear-no-such-hyp".

Lemma prefix_app_r p : ∀ s t,
  String.prefix p s = true → String.prefix p (s +:+ t) = true.
Proof.
  induction p as [|a p IH]; intros s t H; [by destruct (s +:+ t)|].
  destruct s as [|b s]; [done|].
  change (String b s +:+ t) with (String b (s +:+ t)). simpl in *.
  destruct (ascii_dec a b); [by apply IH|done].
Qed.

Lemma endswith_app_l x s suffix :
  PyStr.endswith s suffix = true → PyStr.endswith (x +:+ s) suffix = true.
Proof.
  unfold PyStr.endswith. rewrite string_rev_append. apply prefix_app_r.
Qed.

Lemma lstrip_char_head c s :
  match PyPath.lstrip_char c s with
  | String a _ => a ≠ c
  | EmptyString => True
  end.
Proof.
  induction s as [|a s IH]; simpl; [done|].
  destruct (Ascii.eqb a c) eqn:E; [done|]. by apply Ascii.eqb_neq.
Qed.

(** What [rstrip('/')] leaves does not end with a slash. *)
Lemma rstrip_char_no_trailing s :
  PyStr.endswith (PyPath.rstrip_char "/" s) "/" = false.
Proof.
  unfold PyStr.endswith, PyPath.rstrip_char. rewrite string_rev_involutive.
  pose proof (lstrip_char_head "/" (String.rev s)) as H.
  destruct (PyPath.lstrip_char "/" (String.rev s)) as [|a r]; [done|].
  change (String.prefix (String.rev "/") (String a r))
    with (if ascii_dec "/" a then String.prefix "" r else false).
  destruct (ascii_dec "/" a); [congruence|done].
Qed.

Ltac get_images_cases H :=
  unfold Viewer.get_images, Viewer.collect_images, Viewer.stop_scp_server,
    Viewer.start_scp_server in H;
  repeat first
  [ progress (cbn [negb PyStr.truthy fst snd] in H)
  | match type of H with
    | context [match Viewer.patientId ?r with _ => _ end] =>
        destruct (Viewer.patientId r) as [[|? ?]|] eqn:?
    | context [if Viewer.pacs_established ?e then _ else _] =>
        destruct (Viewer.pacs_established e) eqn:?
    | context [if existsb Viewer.is_pending ?l then _ else _] =>
        destruct (existsb Viewer.is_pending l) eqn:?
    | context [if Viewer.find_raises ?e then _ else _] =>
        destruct (Viewer.find_raises e) eqn:?
    | context [Detector.wait_for_files ?w ?t ?c ?f] =>
        destruct (Detector.wait_for_files w t c f) eqn:?
    end ];
  simpl in H.

(** X18: the answers of [get_images] and the receiving server. The call
    answers 400, 500 or 200. It answers 400 exactly when [patientId] is
    missing or empty, and then it has done nothing. It answers 500 exactly
    when the id is there and the association with the PACS is not
    established, and then the receiving server that it started is left
    running ([scp_server] stays set). Whenever it answers 200 the receiving
    server has been shut down. *)
Theorem X18_get_images_codes_and_server (req : Viewer.http_request)
    (env : Viewer.environment) (scp_server : bool) (fuel : nat)
    (r : Viewer.body) (code : Z) (t : list Viewer.action) (after : bool) :
  Viewer.get_images req env scp_server fuel = Some ((r, code), t, after) →
  (code = 400 ∨ code = 500 ∨ code = 200)%Z
  ∧ (code = 400%Z ↔ Viewer.patientId req = None ∨ Viewer.patientId req = Some "")
  ∧ (code = 400%Z → t = [] ∧ after = scp_server)
  ∧ (code = 500%Z ↔
       (∃ raw, Viewer.patientId req = Some raw ∧ raw ≠ "")
       ∧ Viewer.pacs_established env = false)
  ∧ (code = 500%Z → after = true)
  ∧ (code = 200%Z → after = false).
Proof.
  intros H. get_images_cases H; destruct scp_server; simpl in H;
    try discriminate; injection H as <- <- <- <-;
    (split_and!; first [done | lia | naive_solver]).
Qed.

(** The identifier that [get_images] builds for its C-FIND and C-MOVE. *)
Lemma get_images_sends_move req env scp_server fuel r t after ds aet :
  Viewer.get_images req env scp_server fuel = Some (r, t, after) →
  (ds, aet) ∈ Viewer.moves_sent t →
  ∃ raw files,
    Viewer.patientId req = Some raw
    ∧ raw ≠ ""
    ∧ Viewer.pacs_established env = true
    ∧ existsb Viewer.is_pending (Viewer.find_responses env) = true
    ∧ Detector.wait_for_files (Viewer.landing env) 10 2 fuel = Some files
    ∧ ds = set_attr "PatientID" (PyStr.strip raw)
             (set_attr "QueryRetrieveLevel" "PATIENT" Dataset_new)
    ∧ aet = Viewer.CLIENT_AE_TITLE
    ∧ Viewer.moves_sent t = [(ds, aet)]
    ∧ Viewer.waited_on t = [Viewer.retrieved_folder (PyStr.strip raw)]
    ∧ r = (Viewer.Images (Viewer.image_url (Viewer.host_url req) (PyStr.strip raw)
                            <$> files), 200%Z).
Proof.
  intros H Hin. get_images_cases H;
    destruct scp_server, (Viewer.move_raises env),
      (Viewer.move_completed (Viewer.move_responses env)),
      (Viewer.still_established env);
    simpl in H; try discriminate;
    injection H as <- <- <-;
    cbn in Hin;
    repeat match type of Hin with
    | _ ∈ [] => by apply elem_of_nil in Hin
    | _ ∈ _ :: _ => apply elem_of_cons in Hin as [Hin|Hin]
    end;
    injection Hin as -> ->; eexists _, _; split_and!; done.
Qed.

(** X19: once the C-FIND has reported a match, or has raised, the answer of
    [get_images] is read off the landing folder alone: it is 200 with one URL
    per name that [wait_for_files] returns, in that order, whatever the
    C-MOVE did (statuses of failure, no final success, or an exception
    change what is logged, not what is answered). *)
Theorem X19_get_images_answers_from_the_folder (req : Viewer.http_request)
    (env : Viewer.environment) (scp_server : bool) (fuel : nat)
    (raw : string) (files : list string) :
  Viewer.patientId req = Some raw →
  raw ≠ "" →
  Viewer.pacs_established env = true →
  existsb Viewer.is_pending (Viewer.find_responses env) = true
  ∨ Viewer.find_raises env = true →
  Detector.wait_for_files (Viewer.landing env) 10 2 fuel = Some files →
  ∃ t,
    Viewer.get_images req env scp_server fuel
    = Some ((Viewer.Images (Viewer.image_url (Viewer.host_url req) (PyStr.strip raw)
                              <$> files), 200%Z), t, false)
    ∧ Viewer.waited_on t = [Viewer.retrieved_folder (PyStr.strip raw)].
Proof.
  intros Hid Hne Hest Hfound Hwait.
  unfold Viewer.get_images, Viewer.collect_images. rewrite Hid, Hest, Hwait.
  destruct raw as [|a raw]; [done|]. cbn [PyStr.truthy negb].
  destruct scp_server, (existsb Viewer.is_pending (Viewer.find_responses env)),
    (Viewer.find_raises env), (Viewer.move_raises env),
    (Viewer.move_completed (Viewer.move_responses env)),
    (Viewer.still_established env);
    try (destruct Hfound; discriminate);
    (eexists; split; [reflexivity|reflexivity]).
Qed.

(** X20: [get_images] sends a C-MOVE only after a C-FIND response with a
    pending status. Without one no C-MOVE is sent; and if the C-FIND did not
    raise either, no folder is waited on and a list of images in the answer
    is empty, whatever the landing folder holds. *)
Theorem X20_get_images_moves_only_after_a_match (req : Viewer.http_request)
    (env : Viewer.environment) (scp_server : bool) (fuel : nat)
    (r : Viewer.body * Z) (t : list Viewer.action) (after : bool) :
  Viewer.get_images req env scp_server fuel = Some (r, t, after) →
  existsb Viewer.is_pending (Viewer.find_responses env) = false →
  Viewer.moves_sent t = []
  ∧ (Viewer.find_raises env = false →
     Viewer.waited_on t = [] ∧ ∀ urls, fst r = Viewer.Images urls → urls = []).
Proof.
  intros H Hnone. split.
  - destruct (Viewer.moves_sent t) as [|[ds aet] l] eqn:Hm; [done|].
    destruct (get_images_sends_move _ _ _ _ _ _ _ ds aet H)
      as (? & ? & _ & _ & _ & Hp & _); [rewrite Hm; by left|congruence].
  - intros Hnr.
    get_images_cases H; destruct scp_server; simpl in H;
      try discriminate; try congruence;
      injection H as <- <- <-; (split; [done|]); by intros urls [= <-].
Qed.

(** X21: the URLs that [get_images] answers with. Each is the host URL
    without its trailing slashes, then [/static/retrieved_], the trimmed
    patient id, a slash and a name ending in [.dcm]; so it ends in [.dcm],
    and the host part contributes no slash of its own before [/static]. *)
Theorem X21_get_images_urls (req : Viewer.http_request) (env : Viewer.environment)
    (scp_server : bool) (fuel : nat) (urls : list string) (code : Z)
    (t : list Viewer.action) (after : bool) (u : string) :
  Viewer.get_images req env scp_server fuel
  = Some ((Viewer.Images urls, code), t, after) →
  u ∈ urls →
  ∃ raw fname,
    Viewer.patientId req = Some raw
    ∧ u = PyPath.rstrip_char "/" (Viewer.host_url req)
          +:+ "/static/retrieved_" +:+ PyStr.strip raw +:+ "/" +:+ fname
    ∧ PyStr.endswith fname ".dcm" = true
    ∧ PyStr.endswith u ".dcm" = true
    ∧ PyStr.endswith (PyPath.rstrip_char "/" (Viewer.host_url req)) "/" = false.
Proof.
  intros H Hu.
  assert (G : ∀ raw files,
    Viewer.patientId req = Some raw →
    Detector.wait_for_files (Viewer.landing env) 10 2 fuel = Some files →
    u ∈ Viewer.image_url (Viewer.host_url req) (PyStr.strip raw) <$> files →
    ∃ raw fname,
      Viewer.patientId req = Some raw
      ∧ u = PyPath.rstrip_char "/" (Viewer.host_url req)
            +:+ "/static/retrieved_" +:+ PyStr.strip raw +:+ "/" +:+ fname
      ∧ PyStr.endswith fname ".dcm" = true
      ∧ PyStr.endswith u ".dcm" = true
      ∧ PyStr.endswith (PyPath.rstrip_char "/" (Viewer.host_url req)) "/" = false).
  { intros raw files Hid Hwait (fname & -> & Hin)%list_elem_of_fmap.
    destruct (wait_for_files_listing _ _ _ _ _ Hwait) as [_ Hdcm].
    assert (Hf : PyStr.endswith fname ".dcm" = true)
      by (by eapply Forall_forall in Hdcm).
    exists raw, fname. split_and!; [done..| |apply rstrip_char_no_trailing].
    unfold Viewer.image_url. by do 4 apply endswith_app_l. }
  get_images_cases H; destruct scp_server; simpl in H; try discriminate;
    injection H as <- <- <- <-;
    first [by apply elem_of_nil in Hu | by eapply G].
Qed.

Lemma same_patient_strip raw inst :
  same_patient (PyStr.strip raw) inst = same_patient raw inst.
Proof. unfold same_patient. by rewrite strip_idempotent. Qed.

Lemma request_identifier_attrs p :
  attr (set_attr "PatientID" p (set_attr "QueryRetrieveLevel" "PATIENT" Dataset_new))
    "QueryRetrieveLevel" = Some "PATIENT"
  ∧ attr (set_attr "PatientID" p (set_attr "QueryRetrieveLevel" "PATIENT" Dataset_new))
      "PatientID" = Some p.
Proof. unfold attr, set_attr, Dataset_new. simpl. split; by simplify_map_eq. Qed.

(** X22: the C-MOVE of the viewer and the registry of the PACS fit. When
    the C-MOVE that [get_images] sends reaches [handle_move], the destination
    it names is known: the handler first yields 127.0.0.1 and the port on
    which [start_scp_server] listens, and then the number of stored instances
    whose trimmed PatientID is the trimmed [patientId] of the HTTP request. *)
Theorem X22_viewer_move_reaches_the_viewer (req : Viewer.http_request)
    (env : Viewer.environment) (scp_server : bool) (fuel : nat)
    (r : Viewer.body * Z) (t : list Viewer.action) (after : bool)
    (SPC : list string) (event : move_event) (stored : list Dataset) :
  Viewer.get_images req env scp_server fuel = Some (r, t, after) →
  (mv_identifier event, move_destination event) ∈ Viewer.moves_sent t →
  ∃ raw rest fin,
    Viewer.patientId req = Some raw
    ∧ Viewer.start_scp_server
      = ([Viewer.ScpStart (move_destination event) Viewer.CLIENT_PORT], true)
    ∧ handle_move SPC event stored
      = (Yield (Destination "127.0.0.1" Viewer.CLIENT_PORT (move_destination event)
                  (requested_contexts SPC))
         :: Yield (SubOperations
                     (length (filter (λ inst, same_patient raw inst) stored)))
         :: rest, fin).
Proof.
  intros H Hin.
  destruct (get_images_sends_move _ _ _ _ _ _ _ _ _ H Hin)
    as (raw & files & Hid & _ & _ & _ & _ & Hds & Haet & _).
  destruct (request_identifier_attrs (PyStr.strip raw)) as [Hl Hp].
  unfold handle_move. rewrite Haet, Hds, Hl. simpl.
  unfold select_candidates. rewrite Hp. simpl.
  assert (Hk : KNOWN_AE_DESTINATIONS !! Viewer.CLIENT_AE_TITLE
               = Some ("127.0.0.1", Viewer.CLIENT_PORT)) by (vm_compute; reflexivity).
  rewrite Hk.
  assert (Hf : filter (λ inst, same_patient (PyStr.strip raw) inst) stored
               = filter (λ inst, same_patient raw inst) stored).
  { apply list_filter_iff. intros inst. by rewrite same_patient_strip. }
  rewrite Hf.
  match goal with
  | |- context [send_loop ?e ?a ?p ?d ?k ?l] =>
      destruct (send_loop e a p d k l) as [acts fin] eqn:Hloop
  end.
  by exists raw, acts, fin.
Qed.

(** X23: what the PACS moves lands where [get_images] looks. Take a
    candidate that [handle_move] selects for the C-MOVE sent by
    [get_images]; when the viewer's C-STORE handler receives it and returns
    0x0000, it has created the folder that [get_images] waits on and saved
    the dataset in it, under the instance's SOPInstanceUID followed by
    [.dcm], a name that [wait_for_files] counts. *)
Theorem X23_moved_instance_lands_in_the_polled_folder (req : Viewer.http_request)
    (env : Viewer.environment) (scp_server : bool) (fuel : nat)
    (r : Viewer.body * Z) (t : list Viewer.action) (after : bool)
    (ds : Dataset) (aet : string) (stored : list Dataset) (inst : Dataset)
    (sev : Viewer.store_event) (d : Viewer.disk) :
  Viewer.get_images req env scp_server fuel = Some (r, t, after) →
  (ds, aet) ∈ Viewer.moves_sent t →
  inst ∈ select_candidates ds "PATIENT" stored →
  Viewer.dataset sev = inst →
  fst (Viewer.handle_store sev d) = Return 0x0000%Z →
  ∃ folder uid,
    Viewer.waited_on t = [folder]
    ∧ attr inst "SOPInstanceUID" = Some uid
    ∧ folder ∈ Viewer.dirs (snd (Viewer.handle_store sev d))
    ∧ Viewer.saved (snd (Viewer.handle_store sev d))
        !! PyPath.join folder (uid +:+ ".dcm")
      = Some (mkDataset (elements inst) (Some (Viewer.ev_file_meta sev)))
    ∧ PyStr.endswith (uid +:+ ".dcm") ".dcm" = true.
Proof.
  intros H Hin Hcand Hsev Hok.
  destruct (get_images_sends_move _ _ _ _ _ _ _ _ _ H Hin)
    as (raw & files & _ & _ & _ & _ & _ & Hds & _ & _ & Hwait & _).
  destruct (request_identifier_attrs (PyStr.strip raw)) as [_ Hp].
  unfold select_candidates in Hcand. rewrite Hds, Hp in Hcand. simpl in Hcand.
  apply list_elem_of_filter in Hcand as [Hsame _].
  apply Is_true_true in Hsame. rewrite same_patient_strip in Hsame.
  apply same_patient_spec in Hsame as (p & Hpi & Hs).
  unfold Viewer.handle_store in *. rewrite Hsev in *.
  assert (Hpid : attr (mkDataset (elements inst) (Some (Viewer.ev_file_meta sev)))
                   "PatientID" = Some p) by done.
  rewrite Hpid in *. simpl default in *. rewrite Hs in *.
  destruct (Viewer.makedirs_ok sev); [|done].
  assert (Huid : attr (mkDataset (elements inst) (Some (Viewer.ev_file_meta sev)))
                   "SOPInstanceUID" = attr inst "SOPInstanceUID") by done.
  rewrite Huid in *.
  destruct (attr inst "SOPInstanceUID") as [uid|]; [|done].
  destruct (Viewer.writable sev); [|by destruct (Viewer.opened sev)].
  exists (Viewer.retrieved_folder (PyStr.strip raw)), uid.
  cbn [fst snd Viewer.dirs].
  split_and!; [done|done| | |apply endswith_append].
  - apply elem_of_union. left. by apply elem_of_singleton.
  - unfold Viewer.saved. cbn [Viewer.contents].
    by rewrite lookup_omap, lookup_insert_eq.
Qed.

(** ** Witnesses of the further properties *)

Lemma X3_find_result_shape_witness :
  let stored := [named_instance " 123" "DOE^JOHN" "1.2.3"; instance_of "456" "1.2.4"] in
  let event := mkQueryEvent (request "PATIENT" "123") never in
  let m := set_attr "PatientName" "DOE^JOHN"
             (set_attr "PatientID" " 123"
                (set_attr "QueryRetrieveLevel" "PATIENT" Dataset_new)) in
  ∃ pid inst p,
    attr (identifier event) "PatientID" = Some pid
    ∧ inst ∈ stored
    ∧ attr inst "PatientID" = Some p
    ∧ PyStr.strip p = PyStr.strip pid
    ∧ attr m "PatientID" = Some p
    ∧ attr m "QueryRetrieveLevel" = Some "PATIENT"
    ∧ attr m "PatientName" = attr inst "PatientName"
    ∧ (∀ k, is_Some (attr m k) →
            k = "QueryRetrieveLevel" ∨ k = "PatientID" ∨ k = "PatientName")
    ∧ file_meta m = None.
Proof.
  intros stored event m. apply (X3_find_result_shape event stored m).
  vm_compute. left.
Defined.

Lemma X5_find_name_is_first_instances_witness :
  let stored := [named_instance "123" "DOE^JOHN" "1.2.3";
                 named_instance "123" "DOE^JANE" "1.2.4"] in
  let event := mkQueryEvent (request "PATIENT" "123") never in
  let m := set_attr "PatientName" "DOE^JOHN"
             (set_attr "PatientID" "123"
                (set_attr "QueryRetrieveLevel" "PATIENT" Dataset_new)) in
  ∃ inst, first_with_id "123" stored = Some inst
          ∧ attr m "PatientName" = attr inst "PatientName".
Proof.
  intros stored event m. apply (X5_find_name_is_first_instances event stored m "123").
  - vm_compute. left.
  - reflexivity.
Defined.

Lemma X6_find_cancelled_after_K_results_witness :
  let stored := [instance_of "123" "1.2.3"; instance_of " 123" "1.2.4";
                 instance_of "123 " "1.2.5"] in
  let event := mkQueryEvent (request "PATIENT" "123") (λ k, (1 <=? k)%nat) in
  handle_find event stored
  = (((λ m, (0xFF00%Z, Some m)) <$> take 1 (find_matches "123" ∅ stored))
     ++ [(0xFE00%Z, None)], Returned).
Proof.
  intros stored event. apply (X6_find_cancelled_after_K_results event stored "123" 1).
  - reflexivity.
  - reflexivity.
  - discriminate.
  - vm_compute. lia.
  - intros j Hj. destruct j; [reflexivity|lia].
  - reflexivity.
Defined.

Lemma X7_find_has_result_iff_move_has_candidate_witness :
  let stored := [instance_of "123" "1.2.3"; instance_of "456" "1.2.4"] in
  let fe := mkQueryEvent (request "PATIENT" "123") never in
  let me := mkMoveEvent (request "PATIENT" "123") "TESTSCU" never
              (λ _, Established (Some 0%Z)) in
  match_results (fst (handle_find fe stored)) ≠ []
  ↔ 0 < length (select_candidates (mv_identifier me) "PATIENT" stored).
Proof.
  intros stored fe me.
  apply (X7_find_has_result_iff_move_has_candidate fe me stored "123");
    first [reflexivity | discriminate].
Defined.

Lemma X8_find_ignores_blanks_around_query_id_witness :
  let stored := [instance_of "123" "1.2.3"; instance_of "456" "1.2.4"] in
  handle_find (mkQueryEvent (request "PATIENT" " 123") never) stored
  = handle_find (mkQueryEvent (request "PATIENT" "123  ") never) stored.
Proof.
  intros stored.
  apply (X8_find_ignores_blanks_around_query_id _ _ stored " 123" "123  ");
    first [reflexivity | discriminate].
Defined.

Lemma X9_stored_instance_is_found_witness :
  let ev := mkStoreEvent (instance_of "123 " "1.2.3") ∅ true true in
  let event := mkQueryEvent (request "PATIENT" " 123") never in
  ∃ m q,
    m ∈ match_results
          (fst (handle_find event
                  (stored_datasets (snd (handle_store ev server_init)))))
    ∧ attr m "PatientID" = Some q
    ∧ PyStr.strip q = PyStr.strip " 123".
Proof.
  intros ev event.
  apply (X9_stored_instance_is_found ev server_init event "123 " " 123");
    first [reflexivity | discriminate].
Defined.


Lemma X12_move_with_unusable_identifier_witness :
  let event := mkMoveEvent (request "SERIES" "123") "TESTSCU2" never
                 (λ _, Established (Some 0%Z)) in
  let stored := [instance_of "123" "1.2.3"] in
  (attr (mv_identifier event) "QueryRetrieveLevel" = None →
   handle_move [] event stored
   = ([Yield (Destination "127.0.0.1" 11119 "TESTSCU2" (requested_contexts []))],
      Raised (AttributeError "QueryRetrieveLevel")))
  ∧ (∀ level,
       attr (mv_identifier event) "QueryRetrieveLevel" = Some level →
       level ≠ "PATIENT" ∨ attr (mv_identifier event) "PatientID" = None →
       handle_move [] event stored
       = ([Yield (Destination "127.0.0.1" 11119 "TESTSCU2" (requested_contexts []));
           Yield (SubOperations 0)], Returned)).
Proof.
  intros event stored.
  apply (X12_move_with_unusable_identifier [] event stored "127.0.0.1" 11119).
  reflexivity.
Defined.

Lemma X13_stored_instance_is_last_candidate_witness :
  let st := store_all [mkStoreEvent (instance_of "123" "1.2.3") ∅ true true]
              server_init in
  let ev := mkStoreEvent (instance_of " 123" "1.2.4") ∅ true true in
  select_candidates (request "PATIENT" "123") "PATIENT"
    (stored_datasets (snd (handle_store ev st)))
  = select_candidates (request "PATIENT" "123") "PATIENT" (stored_datasets st)
    ++ [mkDataset (elements (instance_of " 123" "1.2.4")) (Some ∅)].
Proof.
  intros st ev.
  apply (X13_stored_instance_is_last_candidate ev st (request "PATIENT" "123") "123");
    reflexivity.
Defined.

Lemma X14_wait_returns_one_listing_filtered_witness :
  (["a.dcm"; "b.dcm"] = []
   ∨ ∃ k names, listing two_arrivals k = Some names
                ∧ ["a.dcm"; "b.dcm"] = dcm_files names)
  ∧ Forall (λ f, PyStr.endswith f ".dcm" = true) ["a.dcm"; "b.dcm"].
Proof.
  apply (X14_wait_returns_one_listing_filtered two_arrivals 10 2 30).
  vm_compute. reflexivity.
Defined.

Lemma X15_wait_polls_at_least_consecutive_plus_one_witness :
  (by_timeout (mkStop ["a.dcm"; "b.dcm"] 5 4 false) = false →
   2 + 1 ≤ Z.of_nat (polls (mkStop ["a.dcm"; "b.dcm"] 5 4 false)))%Z
  ∧ sleeps (mkStop ["a.dcm"; "b.dcm"] 5 4 false)
    = (if by_timeout (mkStop ["a.dcm"; "b.dcm"] 5 4 false)
       then polls (mkStop ["a.dcm"; "b.dcm"] 5 4 false)
       else pred (polls (mkStop ["a.dcm"; "b.dcm"] 5 4 false))).
Proof.
  apply (X15_wait_polls_at_least_consecutive_plus_one two_arrivals 10 2 30).
  vm_compute. reflexivity.
Defined.

Lemma X16_wait_on_a_steady_folder_witness :
  ∃ names,
    listing steady_folder 2 = Some names
    ∧ ∀ fuel, 2 < fuel →
        run steady_folder 10 (Z.of_nat 2) fuel
        = Some (mkStop (dcm_files names) 3 2 false).
Proof.
  apply (X16_wait_on_a_steady_folder steady_folder 10 2 1).
  - intros k Hk. unfold Qlt. simpl. lia.
  - intros k _. exists ["a.dcm"]. split; reflexivity.
Defined.

Lemma X17_wait_without_stability_check_witness :
  run late_folder 10 0 30 = Some (mkStop (dcm_files ["a.dcm"; "b.dcm"]) 3 2 false).
Proof.
  apply (X17_wait_without_stability_check late_folder 10 0 2 ["a.dcm"; "b.dcm"]).
  - lia.
  - intros j Hj. unfold Qlt. simpl. lia.
  - intros j Hj. destruct j as [|[|j]]; [reflexivity..|lia].
  - reflexivity.
  - lia.
Defined.

Lemma X18_get_images_codes_and_server_witness :
  (500 = 400 ∨ 500 = 500 ∨ 500 = 200)%Z
  ∧ (500%Z = 400%Z
     ↔ Viewer.patientId viewer_request = None
       ∨ Viewer.patientId viewer_request = Some "")
  ∧ (500%Z = 400%Z →
     [Viewer.ScpStart "TESTSCU2" 11119; Viewer.Sleep 1;
      Viewer.Associate "127.0.0.1" 104 "MYPACS"] = [] ∧ true = false)
  ∧ (500%Z = 500%Z ↔
       (∃ raw, Viewer.patientId viewer_request = Some raw ∧ raw ≠ "")
       ∧ Viewer.pacs_established pacs_unreachable = false)
  ∧ (500%Z = 500%Z → true = true)
  ∧ (500%Z = 200%Z → true = false).
Proof.
  apply (X18_get_images_codes_and_server viewer_request pacs_unreachable false 30
           (Viewer.Error "Could not associate with PACS")).
  reflexivity.
Defined.

Lemma X19_get_images_answers_from_the_folder_witness :
  ∃ t,
    Viewer.get_images viewer_request pacs_found_move_failed true 30
    = Some ((Viewer.Images
               (Viewer.image_url "http://localhost:5000/" (PyStr.strip " 123 ")
                <$> ["a.dcm"; "b.dcm"]), 200%Z), t, false)
    ∧ Viewer.waited_on t = [Viewer.retrieved_folder (PyStr.strip " 123 ")].
Proof.
  apply (X19_get_images_answers_from_the_folder viewer_request
           pacs_found_move_failed true 30 " 123 " ["a.dcm"; "b.dcm"]).
  - reflexivity.
  - discriminate.
  - reflexivity.
  - left. reflexivity.
  - vm_compute. reflexivity.
Defined.

Lemma X20_get_images_moves_only_after_a_match_witness :
  let t := [Viewer.ScpStart "TESTSCU2" 11119; Viewer.Sleep 1;
            Viewer.Associate "127.0.0.1" 104 "MYPACS";
            Viewer.SendCFind (set_attr "PatientID" "123"
                                (set_attr "QueryRetrieveLevel" "PATIENT" Dataset_new));
            Viewer.Release; Viewer.ScpShutdown] in
  Viewer.moves_sent t = []
  ∧ (Viewer.find_raises pacs_not_found = false →
     Viewer.waited_on t = []
     ∧ ∀ urls, fst (Viewer.Images [], 200%Z) = Viewer.Images urls → urls = []).
Proof.
  intros t.
  apply (X20_get_images_moves_only_after_a_match viewer_request pacs_not_found
           false 30 (Viewer.Images [], 200%Z) t false).
  - vm_compute. reflexivity.
  - reflexivity.
Defined.

Lemma X21_get_images_urls_witness :
  let u := "http://localhost:5000/static/retrieved_123/b.dcm" in
  ∃ raw fname,
    Viewer.patientId viewer_request = Some raw
    ∧ u = PyPath.rstrip_char "/" (Viewer.host_url viewer_request)
          +:+ "/static/retrieved_" +:+ PyStr.strip raw +:+ "/" +:+ fname
    ∧ PyStr.endswith fname ".dcm" = true
    ∧ PyStr.endswith u ".dcm" = true
    ∧ PyStr.endswith (PyPath.rstrip_char "/" (Viewer.host_url viewer_request)) "/"
      = false.
Proof.
  intros u.
  eapply (X21_get_images_urls viewer_request pacs_found_move_failed true 30
            ["http://localhost:5000/static/retrieved_123/a.dcm";
             "http://localhost:5000/static/retrieved_123/b.dcm"] 200 _ false u).
  - vm_compute. reflexivity.
  - right. left.
Defined.

Lemma X22_viewer_move_reaches_the_viewer_witness :
  let stored := [instance_of "123" "1.2.3"; instance_of "456" "1.2.4";
                 instance_of "123 " "1.2.5"] in
  let event := mkMoveEvent
                 (set_attr "PatientID" "123"
                    (set_attr "QueryRetrieveLevel" "PATIENT" Dataset_new))
                 "TESTSCU2" never (λ _, Established (Some 0%Z)) in
  ∃ raw rest fin,
    Viewer.patientId viewer_request = Some raw
    ∧ Viewer.start_scp_server
      = ([Viewer.ScpStart (move_destination event) Viewer.CLIENT_PORT], true)
    ∧ handle_move [] event stored
      = (Yield (Destination "127.0.0.1" Viewer.CLIENT_PORT (move_destination event)
                  (requested_contexts []))
         :: Yield (SubOperations
                     (length (filter (λ inst, same_patient raw inst) stored)))
         :: rest, fin).
Proof.
  intros stored event.
  eapply (X22_viewer_move_reaches_the_viewer viewer_request pacs_found_move_failed
            true 30 _ _ _ [] event stored).
  - vm_compute. reflexivity.
  - vm_compute. left.
Defined.

Lemma X23_moved_instance_lands_in_the_polled_folder_witness :
  let inst := instance_of "123 " "1.2.5" in
  let sev := Viewer.mkStoreEvent inst ∅ true true true in
  let d := Viewer.mkDisk ∅ ∅ in
  match Viewer.get_images viewer_request pacs_found_move_failed true 30 with
  | Some (_, t, _) =>
      ∃ folder uid,
        Viewer.waited_on t = [folder]
        ∧ attr inst "SOPInstanceUID" = Some uid
        ∧ folder ∈ Viewer.dirs (snd (Viewer.handle_store sev d))
        ∧ Viewer.saved (snd (Viewer.handle_store sev d))
            !! PyPath.join folder (uid +:+ ".dcm")
          = Some (mkDataset (elements inst) (Some (Viewer.ev_file_meta sev)))
        ∧ PyStr.endswith (uid +:+ ".dcm") ".dcm" = true
  | None => False
  end.
Proof.
  intros inst sev d.
  destruct (Viewer.get_images viewer_request pacs_found_move_failed true 30)
    as [[[r t] after]|] eqn:H; [|vm_compute in H; discriminate].
  apply (X23_moved_instance_lands_in_the_polled_folder viewer_request
           pacs_found_move_failed true 30 r t after
           (set_attr "PatientID" "123"
              (set_attr "QueryRetrieveLevel" "PATIENT" Dataset_new))
           "TESTSCU2"
           [instance_of "123" "1.2.3"; instance_of "456" "1.2.4"; inst]
           inst sev d).
  - exact H.
  - vm_compute in H. injection H as _ <- _. vm_compute. left.
  - vm_compute. right. left.
  - reflexivity.
  - reflexivity.
Defined.

(** ** Find and the viewer's store, edge cases *)

(** X24: a find yields something only for a PATIENT-level identifier whose
    PatientID is present, non-empty and, once trimmed, that of a stored
    instance. For any other level, without PatientID, with an empty one, or
    for a patient of whom nothing is stored, it yields nothing at all. *)
Theorem X24_find_yields_only_for_a_stored_patient (event : query_event)
    (stored : list Dataset) :
  fst (handle_find event stored) ≠ [] →
  attr (identifier event) "QueryRetrieveLevel" = Some "PATIENT"
  ∧ ∃ pid inst p,
      attr (identifier event) "PatientID" = Some pid
      ∧ pid ≠ ""
      ∧ inst ∈ stored
      ∧ attr inst "PatientID" = Some p
      ∧ PyStr.strip p = PyStr.strip pid.
Proof.
  unfold handle_find.
  destruct (attr (identifier event) "QueryRetrieveLevel") as [level|]; simpl; [|done].
  case_bool_decide as Hl; [subst level|done].
  destruct (attr (identifier event) "PatientID") as [pid|]; [|done].
  destruct pid as [|a pid]; simpl; [done|].
  set (pid' := String a pid).
  destruct (find_matches pid' ∅ stored) as [|m rest] eqn:Hm; [done|].
  intros _. split; [done|].
  destruct (find_matches_elem pid' stored ∅ m) as (inst & p & Hi & Hp & _ & Hs & _).
  { rewrite Hm. by left. }
  by exists pid', inst, p.
Qed.

Lemma X24_find_yields_only_for_a_stored_patient_witness :
  let event := mkQueryEvent (request "PATIENT" "123") never in
  let stored := [instance_of "456" "1.2.4"; instance_of " 123" "1.2.3"] in
  attr (identifier event) "QueryRetrieveLevel" = Some "PATIENT"
  ∧ ∃ pid inst p,
      attr (identifier event) "PatientID" = Some pid
      ∧ pid ≠ ""
      ∧ inst ∈ stored
      ∧ attr inst "PatientID" = Some p
      ∧ PyStr.strip p = PyStr.strip pid.
Proof.
  intros event stored. apply (X24_find_yields_only_for_a_stored_patient event stored).
  vm_compute. discriminate.
Defined.

(** X25: a find that is never cancelled yields every match it collected,
    each with status 0xFF00, in the order of the first stored instance of
    each PatientID spelling, and nothing after them: the handler itself
    yields no final status. *)
Theorem X25_find_uncancelled_yields_every_match (event : query_event)
    (stored : list Dataset) (pid : string) :
  attr (identifier event) "QueryRetrieveLevel" = Some "PATIENT" →
  attr (identifier event) "PatientID" = Some pid →
  pid ≠ "" →
  (∀ j, j < length (find_matches pid ∅ stored) → is_cancelled event j = false) →
  handle_find event stored
  = ((λ m, (0xFF00%Z, Some m)) <$> find_matches pid ∅ stored, Returned)
  ∧ match_results (fst (handle_find event stored)) = find_matches pid ∅ stored.
Proof.
  intros Hl Hp Hne Hc.
  assert (H : handle_find event stored
              = ((λ m, (0xFF00%Z, Some m)) <$> find_matches pid ∅ stored, Returned)).
  { unfold handle_find. rewrite Hl, Hp. simpl.
    destruct pid as [|a pid]; [done|]. simpl PyStr.truthy. cbv iota.
    by rewrite yield_matches_uncancelled. }
  split; [done|]. rewrite H. simpl.
  assert (G : ∀ l : list Dataset,
    match_results ((λ m, (0xFF00%Z, Some m)) <$> l) = l).
  { induction l as [|m rest IH]; [done|]. rewrite fmap_cons.
    change (match_results ((0xFF00%Z, Some m) :: ((λ m, (0xFF00%Z, Some m)) <$> rest)))
      with (m :: match_results ((λ m, (0xFF00%Z, Some m)) <$> rest)).
    by rewrite IH. }
  apply G.
Qed.

Lemma X25_find_uncancelled_yields_every_match_witness :
  let event := mkQueryEvent (request "PATIENT" "123") never in
  let stored := [instance_of "123" "1.2.3"; instance_of " 123" "1.2.4";
                 instance_of "123" "1.2.5"] in
  handle_find event stored
  = ((λ m, (0xFF00%Z, Some m)) <$> find_matches "123" ∅ stored, Returned)
  ∧ match_results (fst (handle_find event stored)) = find_matches "123" ∅ stored.
Proof.
  intros event stored.
  apply (X25_find_uncancelled_yields_every_match event stored "123").
  - reflexivity.
  - reflexivity.
  - discriminate.
  - intros j _. reflexivity.
Defined.

(** X26: the outcomes of the viewer's store handler. It returns 0x0000
    exactly when the folder could be made, the dataset has a SOPInstanceUID
    and the file could be written. The folder of the patient, named after the
    trimmed PatientID or [unknown] when there is none, is asked for before
    the SOPInstanceUID is read: it is there whenever [os.makedirs] succeeded,
    also when the store then fails. A store that fails adds no whole file,
    but it can leave an unfinished one: every path holds what it held,
    except that the path [<folder>/<uid>.dcm] of the instance may hold an
    unfinished file, under a name that ends in [.dcm]. *)
Theorem X26_viewer_store_outcomes (sev : Viewer.store_event) (d : Viewer.disk) :
  (fst (Viewer.handle_store sev d) = Return 0x0000%Z
   ↔ Viewer.makedirs_ok sev = true
     ∧ is_Some (attr (Viewer.dataset sev) "SOPInstanceUID")
     ∧ Viewer.writable sev = true)
  ∧ (Viewer.makedirs_ok sev = true →
     Viewer.retrieved_folder
       (PyStr.strip (default "unknown" (attr (Viewer.dataset sev) "PatientID")))
     ∈ Viewer.dirs (snd (Viewer.handle_store sev d)))
  ∧ ((∃ e, fst (Viewer.handle_store sev d) = Raise e) →
     (∀ path ds, Viewer.saved (snd (Viewer.handle_store sev d)) !! path = Some ds →
                 Viewer.saved d !! path = Some ds)
     ∧ ∀ path,
         Viewer.contents (snd (Viewer.handle_store sev d)) !! path
         = Viewer.contents d !! path
         ∨ (Viewer.contents (snd (Viewer.handle_store sev d)) !! path = Some Unfinished
            ∧ ∃ uid,
                attr (Viewer.dataset sev) "SOPInstanceUID" = Some uid
                ∧ path
                  = PyPath.join
                      (Viewer.retrieved_folder
                         (PyStr.strip
                            (default "unknown" (attr (Viewer.dataset sev) "PatientID"))))
                      (uid +:+ ".dcm")
                ∧ PyStr.endswith (uid +:+ ".dcm") ".dcm" = true)).
Proof.
  unfold Viewer.handle_store.
  change (attr (mkDataset (elements (Viewer.dataset sev))
                  (Some (Viewer.ev_file_meta sev))) "PatientID")
    with (attr (Viewer.dataset sev) "PatientID").
  change (attr (mkDataset (elements (Viewer.dataset sev))
                  (Some (Viewer.ev_file_meta sev))) "SOPInstanceUID")
    with (attr (Viewer.dataset sev) "SOPInstanceUID").
  set (folder := Viewer.retrieved_folder _).
  assert (Hsame : ∀ dirs',
            (∀ path ds, Viewer.saved (Viewer.mkDisk dirs' (Viewer.contents d)) !! path
                        = Some ds → Viewer.saved d !! path = Some ds)) by done.
  destruct (Viewer.makedirs_ok sev); cbn [fst snd Viewer.dirs Viewer.contents].
  2: { split_and!; [|done|intros _; split; [done|by left]].
       split; [done|]. by intros (? & _). }
  destruct (attr (Viewer.dataset sev) "SOPInstanceUID") as [uid|];
    cbn [fst snd Viewer.dirs Viewer.contents].
  2: { split_and!; [|intros _; apply elem_of_union; left; by apply elem_of_singleton|].
       - split; [done|]. by intros (_ & [? ?] & _).
       - intros _. split; [apply Hsame|by left]. }
  destruct (Viewer.writable sev); cbn [fst snd Viewer.dirs Viewer.contents].
  { split_and!; [|intros _; apply elem_of_union; left; by apply elem_of_singleton|].
    - split; [by eauto|done].
    - by intros [e ?]. }
  destruct (Viewer.opened sev); cbn [fst snd Viewer.dirs Viewer.contents].
  - split_and!; [|intros _; apply elem_of_union; left; by apply elem_of_singleton|].
    + split; [done|]. by intros (_ & _ & ?).
    + intros _. split.
      * intros path ds. unfold Viewer.saved. cbn [Viewer.contents].
        rewrite !lookup_omap.
        destruct (decide (PyPath.join folder (uid +:+ ".dcm") = path)) as [<-|Hp].
        -- by rewrite lookup_insert_eq.
        -- by rewrite lookup_insert_ne.
      * intros path.
        destruct (decide (PyPath.join folder (uid +:+ ".dcm") = path)) as [<-|Hp].
        -- right. rewrite lookup_insert_eq. split; [done|].
           exists uid. split_and!; [done|done|apply endswith_append].
        -- left. by rewrite lookup_insert_ne.
  - split_and!; [|intros _; apply elem_of_union; left; by apply elem_of_singleton|].
    + split; [done|]. by intros (_ & _ & ?).
    + intros _. split; [apply Hsame|by left].
Qed.

(** A move that the viewer receives with a write failing mid-way: the store
    raises, and the patient's folder holds an unfinished file under the name
    of the instance. *)
Example viewer_failed_write_leaves_a_file :
  let sev := Viewer.mkStoreEvent (instance_of "123 " "1.2.5") ∅ true false true in
  let d := Viewer.mkDisk ∅ ∅ in
  fst (Viewer.handle_store sev d) = Raise OSError
  ∧ Viewer.contents (snd (Viewer.handle_store sev d))
      !! "static/retrieved_123/1.2.5.dcm" = Some Unfinished
  ∧ Viewer.saved (snd (Viewer.handle_store sev d)) = ∅.
Proof. split_and!; reflexivity. Qed.
